(** * Gemini File Search scripts: a shallow embedding

    The repository is a set of command-line scripts around the Gemini File
    Search API: a demo ([gemini-rag-zero.py]), a store manager
    ([manage-filestore.py], [manage-store.py]) and a query tool
    ([query-store.py]).  Every function talks to a remote client, to the
    local file system, to standard input and to standard output.

    The embedding keeps that shape.  The client is an interface (a type
    class): a world state and a transition function that answers each call
    with a value or with an exception.  A script function is a computation in
    a small state-and-exception monad that threads the world, the list of
    calls issued so far together with their replies, and the printed lines.
    The only unbounded loop of the scripts - polling an operation until it
    reports [done] - takes a number of iterations it may run; running out of
    them is the outcome [Spin], which no [except] clause can catch. *)

From Stdlib Require Import String Ascii List ZArith QArith Qabs Bool Arith Lia DecimalString.
Import ListNotations.
Close Scope Q_scope.
Open Scope string_scope.

(** ** Data model, as the scripts read it *)

(** Exceptions are identified with the text that [str(e)] gives. *)
Definition exn := string.

Record Store := {
  store_name : string;
  store_display_name : string;
  store_create_time : string
}.

(** [size_bytes] is probed with [getattr(doc, 'size_bytes', 0)]: [None] is
    the attribute being absent. *)
Record Document := {
  doc_name : string;
  doc_display_name : string;
  size_bytes : option Z
}.

(** [error] and [response] are tested for truth ([hasattr(operation,
    'error') and operation.error]): [None] is an absent or empty value. *)
Record Operation := {
  op_name : string;
  done : bool;
  error : option string;
  response : option string
}.

Record WhiteSpaceConfig := {
  max_tokens_per_chunk : Z;
  max_overlap_tokens : Z
}.

Record UploadConfig := {
  display_name : string;
  chunking_config : WhiteSpaceConfig;
  upload_custom_metadata : option string
}.

Record PageRange := {
  start_page_index : Z;
  end_page_index : Z
}.

Record FileSearch := {
  document : Document;
  page_range : option PageRange
}.

(** [hasattr(chunk, 'file_search')] is [file_search] being [Some]. *)
Record GroundingChunk := {
  file_search : option FileSearch
}.

Record GroundingMetadata := {
  grounding_chunks : list GroundingChunk
}.

Record Candidate := {
  grounding_metadata : option GroundingMetadata
}.

Record Response := {
  text : option string;
  candidates : list Candidate
}.

(** ** The calls a script can issue *)

Inductive call : Type -> Type :=
| StoresCreate (display : string) : call Store
| StoresList : call (list Store)
| StoresDelete (name : string) (force : bool) : call unit
| DocumentsList (parent : string) : call (list Document)
| DeleteDocument (name : string) : call unit
| UploadToFileSearchStore (file parent : string) (config : UploadConfig) : call Operation
| ImportFile (store file_name : string) (custom_metadata : option string) : call Operation
| OperationsGet (operation : Operation) : call Operation
| GenerateContent (model contents : string) (file_search_store_names : list string) : call Response
| Input (prompt : string) : call string.

(** What a run leaves behind: each call with the reply it got, each
    [os.path.exists] probe with its answer, each [time.sleep]. *)
Inductive event : Type :=
| Called (A : Type) (c : call A) (reply : exn + A)
| Probed (path : string) (found : bool)
| Slept (seconds : Z).

Arguments Called {A} c reply.

(** The collaborator every script reaches through the global [client], [os]
    and [time]. *)
Class Client := {
  World : Type;
  remote : forall A, World -> call A -> World * (exn + A);
  path_exists : World -> string -> bool;
  elapse : World -> Z -> World
}.

(** ** The monad of script runs *)

Inductive result (A : Type) : Type :=
| Ret (a : A)          (* the function returned *)
| Raise (e : exn)      (* an exception is propagating *)
| Exit (code : Z)      (* [exit(code)] *)
| Spin.                (* still inside a polling loop *)

Arguments Ret {A} a.
Arguments Raise {A} e.
Arguments Exit {A} code.
Arguments Spin {A}.

Section Runtime.
Context {C : Client}.

Record state := {
  world : World;
  trace : list event;
  out : list string
}.

Definition M (A : Type) : Type := state -> result A * state.

Definition ret {A} (a : A) : M A := fun s => (Ret a, s).

Definition bind {A B} (m : M A) (k : A -> M B) : M B :=
  fun s =>
    match m s with
    | (Ret a, s1) => k a s1
    | (Raise e, s1) => (Raise e, s1)
    | (Exit code, s1) => (Exit code, s1)
    | (Spin, s1) => (Spin, s1)
    end.

Definition raise {A} (e : exn) : M A := fun s => (Raise e, s).

Definition exit {A} (code : Z) : M A := fun s => (Exit code, s).

Definition spin {A} : M A := fun s => (Spin, s).

(** [try: m except Exception as e: h e] - [exit] is not an [Exception]. *)
Definition try_except {A} (m : M A) (h : exn -> M A) : M A :=
  fun s =>
    match m s with
    | (Raise e, s1) => h e s1
    | other => other
    end.

(** [try: m except: h] - a bare [except] also stops [exit]. *)
Definition try_except_all {A} (m : M A) (h : M A) : M A :=
  fun s =>
    match m s with
    | (Raise _, s1) => h s1
    | (Exit _, s1) => h s1
    | other => other
    end.

(** The three ways a step changes the state. *)
Definition logged (s : state) (w : World) (ev : event) : state :=
  {| world := w; trace := trace s ++ [ev]; out := out s |}.

Definition printed (s : state) (line : string) : state :=
  {| world := world s; trace := trace s; out := out s ++ [line] |}.

Definition start (w : World) : state :=
  {| world := w; trace := []; out := [] |}.

Definition perform {A} (c : call A) : M A :=
  fun s =>
    let (w, reply) := remote A (world s) c in
    match reply with
    | inl e => (Raise e, logged s w (Called c reply))
    | inr a => (Ret a, logged s w (Called c reply))
    end.

Definition os_path_exists (path : string) : M bool :=
  fun s =>
    let found := path_exists (world s) path in
    (Ret found, logged s (world s) (Probed path found)).

Definition time_sleep (seconds : Z) : M unit :=
  fun s => (Ret tt, logged s (elapse (world s) seconds) (Slept seconds)).

Definition print (line : string) : M unit :=
  fun s => (Ret tt, printed s line).

End Runtime.

Declare Scope script_scope.
Delimit Scope script_scope with script.
Notation "x <- m ;; k" := (bind m (fun x => k))
  (at level 61, m at next level, right associativity) : script_scope.
Notation "m ;; k" := (bind m (fun _ => k))
  (at level 61, right associativity) : script_scope.
Open Scope script_scope.

(** ** Python helpers shared by the scripts *)

Definition nl : string := String (ascii_of_nat 10) EmptyString.

Definition str_of_nat (n : nat) : string := NilZero.string_of_uint (Nat.to_uint n).

Definition str_of_Z (z : Z) : string := NilZero.string_of_int (Z.to_int z).

(** [f"{x:.2f}"] and [f"{x:.1f}"]: [digits] decimals, the nearest value,
    ties to even, a minus sign for a negative number. *)
Definition round_half_even (x : Q) : Z :=
  let num := Qnum x in
  let den := Zpos (Qden x) in
  let floor := (num / den)%Z in
  let twice := (2 * (num mod den))%Z in
  if (twice <? den)%Z then floor
  else if (den <? twice)%Z then (floor + 1)%Z
  else if Z.even floor then floor else (floor + 1)%Z.

Fixpoint pad_left (width : nat) (s : string) : string :=
  match width with
  | O => s
  | S width' =>
      if (String.length s <? width)%nat then pad_left width' ("0" ++ s) else s
  end.

Definition format_fixed (digits : nat) (x : Q) : string :=
  let scale := (10 ^ Z.of_nat digits)%Z in
  let n := round_half_even (Qabs x * inject_Z scale)%Q in
  let whole := str_of_Z (n / scale)%Z in
  let fraction := pad_left digits (str_of_Z (n mod scale)%Z) in
  (if Qle_bool 0 x then "" else "-")
  ++ whole ++ (match digits with O => "" | S _ => "." ++ fraction end).

(** [needle in hay] *)
Definition contains (needle hay : string) : bool :=
  match index 0 needle hay with
  | Some _ => true
  | None => false
  end.

Definition lower_ascii (c : ascii) : ascii :=
  let n := nat_of_ascii c in
  if ((65 <=? n) && (n <=? 90))%nat then ascii_of_nat (n + 32) else c.

(** [s.lower()] on the letters that can matter when the result is compared
    with an ASCII word. *)
Fixpoint lower (s : string) : string :=
  match s with
  | EmptyString => EmptyString
  | String c rest => String (lower_ascii c) (lower rest)
  end.

(** [os.path.basename]: what follows the last slash. *)
Fixpoint basename_from (current : string) (s : string) : string :=
  match s with
  | EmptyString => current
  | String c rest =>
      if Ascii.eqb c "/"%char then basename_from rest rest
      else basename_from current rest
  end.

Definition basename (path : string) : string := basename_from path path.

(** [f"{x}"] of an optional text. *)
Definition str_of_option (o : option string) : string :=
  match o with
  | Some s => s
  | None => "None"
  end.

(** The chunking configuration literal that every upload passes. *)
Definition white_space_config : WhiteSpaceConfig :=
  {| max_tokens_per_chunk := 500; max_overlap_tokens := 50 |}.

Definition upload_config (file_path : string) (custom_metadata : option string) : UploadConfig :=
  {| display_name := basename file_path;
     chunking_config := white_space_config;
     upload_custom_metadata := custom_metadata |}.

(** ** The completion wait

    [while not operation.done: time.sleep(2); operation =
    client.operations.get(operation)], the same three lines in the demo, in
    [upload_files], in [upload_with_metadata] and in [import_files]. *)
Section Polling.
Context {C : Client}.

Fixpoint wait_until_done (fuel : nat) (operation : Operation) : M Operation :=
  if done operation then ret operation
  else
    match fuel with
    | O => spin
    | S fuel' =>
        time_sleep 2 ;;
        operation' <- perform (OperationsGet operation) ;;
        wait_until_done fuel' operation'
    end.

End Polling.

(** ** gemini-rag-zero.py *)
Module RagZero.

(** [re.search(r'project[s]?[/:](\d+)', error_str)], group 1. *)
Definition is_digit (c : ascii) : bool :=
  let n := nat_of_ascii c in ((48 <=? n) && (n <=? 57))%nat.

Fixpoint take_digits (s : string) : string :=
  match s with
  | EmptyString => EmptyString
  | String c rest => if is_digit c then String c (take_digits rest) else EmptyString
  end.

Definition separator_then_digits (s : string) : option string :=
  match s with
  | String c rest =>
      if Ascii.eqb c "/"%char || Ascii.eqb c ":"%char then
        match take_digits rest with
        | EmptyString => None
        | digits => Some digits
        end
      else None
  | EmptyString => None
  end.

Definition match_project_here (s : string) : option string :=
  if prefix "project" s then
    let after := substring 7 (String.length s - 7) s in
    match after with
    | String c rest =>
        if Ascii.eqb c "s"%char then
          match separator_then_digits rest with
          | Some digits => Some digits
          | None => separator_then_digits after
          end
        else separator_then_digits after
    | EmptyString => None
    end
  else None.

Fixpoint re_search_project (s : string) : option string :=
  match match_project_here s with
  | Some digits => Some digits
  | None =>
      match s with
      | EmptyString => None
      | String _ rest => re_search_project rest
      end
  end.

Definition sample_files : list string :=
  ["samples/sample1.pdf"; "samples/sample2.pdf"; "samples/sample3.pdf"].

Definition default_questions : list string :=
  ["Summarize the main topics covered in the documents.";
   "What are the key findings or recommendations?";
   "List any important dates or deadlines mentioned."].

Section Demo.
Context {C : Client}.

(** The [except Exception as e] clause around the store creation. *)
Definition create_failed (error_str : exn) : M Store :=
  if contains "PERMISSION_DENIED" error_str || contains "SERVICE_DISABLED" error_str then
    let project_id :=
      match re_search_project error_str with
      | Some digits => digits
      | None => "YOUR_PROJECT_ID"
      end in
    print (nl ++ "❌ Error: Generative Language API is not enabled!") ;;
    print (nl ++ "📝 To fix this (choose one):") ;;
    print (nl ++ "   Option 1 (Fastest - CLI):") ;;
    print ("   gcloud services enable generativelanguage.googleapis.com --project="
           ++ project_id) ;;
    print (nl ++ "   Option 2 (Web Console):") ;;
    print "   1. Visit: https://console.developers.google.com/apis/api/generativelanguage.googleapis.com" ;;
    print "   2. Click 'Enable API'" ;;
    print "   3. Wait a few minutes for changes to propagate" ;;
    print (nl ++ "   Then run the script again") ;;
    exit 1
  else if contains "API_KEY_INVALID" error_str then
    print (nl ++ "❌ Error: Invalid API key!") ;;
    print (nl ++ "📝 To fix this:") ;;
    print "   1. Get a valid API key from: https://aistudio.google.com/apikey" ;;
    print "   2. Update your .env file with: GEMINI_API_KEY=your-actual-key" ;;
    exit 1
  else
    raise error_str.

(** The loop [for file_path in sample_files], with its counter. *)
Fixpoint upload_samples (fuel : nat) (store : string) (files : list string)
    (uploaded_count : nat) : M nat :=
  match files with
  | [] => ret uploaded_count
  | file_path :: rest =>
      found <- os_path_exists file_path ;;
      if found then
        print ("   Uploading " ++ file_path ++ "...") ;;
        operation <- perform (UploadToFileSearchStore file_path store
                                (upload_config file_path None)) ;;
        _ <- wait_until_done fuel operation ;;
        upload_samples fuel store rest (S uploaded_count)
      else
        print ("   ⚠️  File not found: " ++ file_path) ;;
        upload_samples fuel store rest uploaded_count
  end.

(** [for chunk in ...grounding_chunks: if hasattr(chunk, 'file_search')] *)
Fixpoint print_sources (chunks : list GroundingChunk) : M unit :=
  match chunks with
  | [] => ret tt
  | chunk :: rest =>
      match file_search chunk with
      | Some fs =>
          print ("   • " ++ doc_display_name (document fs)) ;;
          print_sources rest
      | None => print_sources rest
      end
  end.

(** The loop [for q in questions]. *)
Fixpoint ask (model_name store : string) (questions : list string) : M unit :=
  match questions with
  | [] => ret tt
  | q :: rest =>
      print (nl ++ "Q: " ++ q) ;;
      response <- perform (GenerateContent model_name q [store]) ;;
      print ("A: " ++ str_of_option (text response)) ;;
      match candidates response with
      | [] => raise "list index out of range"
      | candidate :: _ =>
          match grounding_metadata candidate with
          | Some metadata =>
              print "   📌 Sources:" ;;
              print_sources (grounding_chunks metadata)
          | None => ret tt
          end
      end ;;
      ask model_name store rest
  end.

(** [main()], after [argparse] has produced [args.model] and [args.query]. *)
Definition main (fuel : nat) (model_name : string) (query : option string) : M unit :=
  let model_display :=
    if String.eqb model_name "gemini-2.5-flash"
    then "Flash (fast & cost-effective)" else "Pro (most capable)" in
  print ("🚀 Creating File Search Store in Gemini using " ++ model_name
         ++ " (" ++ model_display ++ ")...") ;;
  file_search_store <-
    try_except (perform (StoresCreate "Company Knowledge Base - Demo")) create_failed ;;
  print ("   Store created: " ++ store_name file_search_store) ;;
  print (nl ++ "📂 Uploading sample documents...") ;;
  print "   Note: This demo expects PDF files in the 'samples/' directory." ;;
  print "   Add your own PDFs there, or modify the file paths below." ;;
  uploaded_count <- upload_samples fuel (store_name file_search_store) sample_files 0 ;;
  if (uploaded_count =? 0)%nat then
    print (nl ++ "   ❌ No files were uploaded. Please add PDF files to the 'samples/' directory.") ;;
    print "   Cleaning up and exiting..." ;;
    perform (StoresDelete (store_name file_search_store) true) ;;
    ret tt
  else
    print ("   ✅ Uploaded " ++ str_of_nat uploaded_count ++ " file(s)") ;;
    print (nl ++ "🤖 Asking questions with RAG enabled...") ;;
    let questions :=
      match query with
      | Some (String c rest) => [String c rest]
      | _ => default_questions
      end in
    ask model_name (store_name file_search_store) questions ;;
    print (nl ++ "🧹 Cleaning up...") ;;
    perform (StoresDelete (store_name file_search_store) true) ;;
    print "   Store deleted. All done! 🎉".

End Demo.
End RagZero.

(** ** manage-filestore.py *)
Module ManageFilestore.

(** [getattr(doc, 'size_bytes', 0)] *)
Definition getattr_size_bytes (doc : Document) : Z :=
  match size_bytes doc with
  | Some n => n
  | None => 0
  end.

(** [sum(getattr(doc, 'size_bytes', 0) for doc in docs)] *)
Definition sum_size_bytes (docs : list Document) : Z :=
  fold_left (fun acc doc => acc + getattr_size_bytes doc)%Z docs 0%Z.

(** [... / (1024 * 1024)].  Python's quotient is a binary64 float; sizes are
    integers, and dividing by [2^20], adding such quotients and multiplying
    by 3 are all exact in binary64 as long as three times the byte total
    stays below [2^53], so the model computes in the rationals. *)
Definition megabytes (bytes : Z) : Q := (inject_Z bytes / inject_Z (1024 * 1024))%Q.

Section Manager.
Context {C : Client}.

(** The formats [{x:.2f}] and [{x:.1f}]. *)
Definition fmt2 : Q -> string := format_fixed 2.
Definition fmt1 : Q -> string := format_fixed 1.

(** [for store in stores: try: ... except: pass], on the two running
    totals. *)
Fixpoint sum_stores (stores : list Store) (total_docs : nat) (total_size_mb : Q)
    : M (nat * Q) :=
  match stores with
  | [] => ret (total_docs, total_size_mb)
  | store :: rest =>
      totals <-
        try_except_all
          (docs <- perform (DocumentsList (store_name store)) ;;
           let store_size := megabytes (sum_size_bytes docs) in
           ret ((total_docs + List.length docs)%nat, (total_size_mb + store_size)%Q))
          (ret (total_docs, total_size_mb)) ;;
      sum_stores rest (fst totals) (snd totals)
  end.

Definition show_stats (store : option string) : M unit :=
  match store with
  | Some (String c rest) =>
      let name := String c rest in
      print ("📊 Statistics for store: " ++ name ++ nl) ;;
      try_except
        (docs <- perform (DocumentsList name) ;;
         let total_size := megabytes (sum_size_bytes docs) in
         print ("Documents: " ++ str_of_nat (List.length docs)) ;;
         print ("Total Size: ~" ++ fmt2 total_size ++ " MB") ;;
         print ("Estimated Storage (with embeddings): ~"
                ++ fmt2 (total_size * 3)%Q ++ " MB"))
        (fun e => print ("❌ Error: " ++ e))
  | _ =>
      print ("📊 Global Storage Statistics" ++ nl) ;;
      stores <- perform StoresList ;;
      match stores with
      | [] => print "No stores found."
      | _ :: _ =>
          totals <- sum_stores stores 0%nat 0%Q ;;
          let total_docs := fst totals in
          let total_size_mb := snd totals in
          let estimated_storage_mb := (total_size_mb * 3)%Q in
          print ("Total Stores: " ++ str_of_nat (List.length stores)) ;;
          print ("Total Documents: " ++ str_of_nat total_docs) ;;
          print ("Total Input Size: ~" ++ fmt2 total_size_mb ++ " MB") ;;
          print ("Estimated Storage Used: ~" ++ fmt2 estimated_storage_mb
                 ++ " MB (~" ++ fmt2 (estimated_storage_mb / 1024)%Q ++ " GB)") ;;
          print (nl ++ "Free Tier Limit: 1 GB") ;;
          if negb (Qle_bool 1024 estimated_storage_mb) then
            let remaining := (1024 - estimated_storage_mb)%Q in
            print ("Remaining: ~" ++ fmt2 remaining ++ " MB ("
                   ++ fmt1 (remaining / 1024 * 100)%Q ++ "% free)")
          else
            print ("⚠️  Exceeds free tier by ~"
                   ++ fmt2 (estimated_storage_mb - 1024)%Q ++ " MB")
      end
  end.

(** The loop of [upload_files], with its counter. *)
Fixpoint upload_each (fuel : nat) (store : string) (file_paths : list string)
    (uploaded : nat) : M nat :=
  match file_paths with
  | [] => ret uploaded
  | file_path :: rest =>
      found <- os_path_exists file_path ;;
      if negb found then
        print ("   ⚠️  File not found: " ++ file_path) ;;
        upload_each fuel store rest uploaded
      else
        uploaded' <-
          try_except
            (print ("   Uploading " ++ file_path ++ "...") ;;
             operation <- perform (UploadToFileSearchStore file_path store
                                     (upload_config file_path None)) ;;
             _ <- wait_until_done fuel operation ;;
             print "   ✅ Uploaded successfully" ;;
             ret (S uploaded))
            (fun e =>
               print ("   ❌ Error uploading " ++ file_path ++ ": " ++ e) ;;
               ret uploaded) ;;
        upload_each fuel store rest uploaded'
  end.

Definition upload_files (fuel : nat) (store : string) (file_paths : list string) : M unit :=
  print ("📤 Uploading files to store: " ++ store ++ nl) ;;
  uploaded <- upload_each fuel store file_paths 0 ;;
  print (nl ++ "✅ Uploaded " ++ str_of_nat uploaded ++ "/"
         ++ str_of_nat (List.length file_paths) ++ " files").

(** [if custom_metadata:] - an empty value is not passed on. *)
Definition truthy (custom_metadata : option string) : option string :=
  match custom_metadata with
  | Some (String c rest) => Some (String c rest)
  | _ => None
  end.

(** The loop of [upload_with_metadata]. *)
Fixpoint upload_each_with_metadata (fuel : nat) (store : string)
    (file_paths : list string) (custom_metadata : option string) (uploaded : nat)
    : M nat :=
  match file_paths with
  | [] => ret uploaded
  | file_path :: rest =>
      found <- os_path_exists file_path ;;
      if negb found then
        print ("   ⚠️  File not found: " ++ file_path) ;;
        upload_each_with_metadata fuel store rest custom_metadata uploaded
      else
        uploaded' <-
          try_except
            (print ("   Uploading " ++ file_path ++ "...") ;;
             operation <- perform (UploadToFileSearchStore file_path store
                                     (upload_config file_path (truthy custom_metadata))) ;;
             print "   ⏳ Processing..." ;;
             _ <- wait_until_done fuel operation ;;
             print "   ✅ Uploaded successfully" ;;
             ret (S uploaded))
            (fun e =>
               print ("   ❌ Error uploading " ++ file_path ++ ": " ++ e) ;;
               ret uploaded) ;;
        upload_each_with_metadata fuel store rest custom_metadata uploaded'
  end.

Definition upload_with_metadata (fuel : nat) (store : string) (file_paths : list string)
    (custom_metadata : option string) : M unit :=
  print ("📤 Uploading files to store: " ++ store ++ nl) ;;
  match truthy custom_metadata with
  | Some metadata => print ("Custom metadata: " ++ metadata ++ nl)
  | None => ret tt
  end ;;
  uploaded <- upload_each_with_metadata fuel store file_paths custom_metadata 0 ;;
  print (nl ++ "✅ Uploaded " ++ str_of_nat uploaded ++ "/"
         ++ str_of_nat (List.length file_paths) ++ " files").

(** The loop of [import_files]. *)
Fixpoint import_each (fuel : nat) (store : string) (file_ids : list string)
    (custom_metadata : option string) (imported : nat) : M nat :=
  match file_ids with
  | [] => ret imported
  | file_id :: rest =>
      imported' <-
        try_except
          (print ("   Importing " ++ file_id ++ "...") ;;
           operation <- perform (ImportFile store file_id (truthy custom_metadata)) ;;
           operation <- wait_until_done fuel operation ;;
           match error operation with
           | Some err =>
               print ("   ❌ Failed: " ++ err) ;;
               ret imported
           | None =>
               print "   ✅ Imported successfully" ;;
               ret (S imported)
           end)
          (fun e =>
             print ("   ❌ Error importing " ++ file_id ++ ": " ++ e) ;;
             ret imported) ;;
      import_each fuel store rest custom_metadata imported'
  end.

Definition import_files (fuel : nat) (store : string) (file_ids : list string)
    (custom_metadata : option string) : M unit :=
  print ("📥 Importing files to store: " ++ store ++ nl) ;;
  imported <- import_each fuel store file_ids custom_metadata 0 ;;
  print (nl ++ "✅ Imported " ++ str_of_nat imported ++ "/"
         ++ str_of_nat (List.length file_ids) ++ " files").

(** [delete_store] and [remove_document]; [manage-store.py] defines both
    with the same text. *)
Definition delete_store (store : string) : M unit :=
  try_except
    (print ("⚠️  Deleting store: " ++ store) ;;
     print "   This will remove the store and all its documents." ;;
     confirm <- perform (Input "   Type 'yes' to confirm: ") ;;
     if String.eqb (lower confirm) "yes" then
       perform (StoresDelete store true) ;;
       print "   ✅ Store deleted successfully!"
     else
       print "   ❌ Deletion cancelled.")
    (fun e => print ("   ❌ Error deleting store: " ++ e)).

Definition remove_document (doc_id : string) : M unit :=
  try_except
    (print ("⚠️  Removing document: " ++ doc_id) ;;
     confirm <- perform (Input "   Type 'yes' to confirm: ") ;;
     if String.eqb (lower confirm) "yes" then
       perform (DeleteDocument doc_id) ;;
       print "   ✅ Document removed successfully!"
     else
       print "   ❌ Removal cancelled.")
    (fun e => print ("   ❌ Error removing document: " ++ e)).

(** The lines one grounding chunk contributes under [📌 Sources:]. *)
Definition print_chunk (chunk : GroundingChunk) : M unit :=
  match file_search chunk with
  | Some fs =>
      print ("   • " ++ doc_display_name (document fs)) ;;
      match page_range fs with
      | Some pages =>
          print ("     Pages: " ++ str_of_Z (start_page_index pages) ++ "-"
                 ++ str_of_Z (end_page_index pages))
      | None => ret tt
      end
  | None => ret tt
  end.

Fixpoint print_sources (chunks : list GroundingChunk) : M unit :=
  match chunks with
  | [] => ret tt
  | chunk :: rest => print_chunk chunk ;; print_sources rest
  end.

(** [query_store]; the function of the same name in [query-store.py] is the
    same text. *)
Definition query_store (store question model : string) : M unit :=
  print ("🔍 Querying store: " ++ store ++ nl) ;;
  print ("Q: " ++ question ++ nl) ;;
  try_except
    (response <- perform (GenerateContent model question [store]) ;;
     print ("A: " ++ str_of_option (text response) ++ nl) ;;
     match candidates response with
     | [] => raise "list index out of range"
     | candidate :: _ =>
         match grounding_metadata candidate with
         | Some metadata =>
             print "📌 Sources:" ;;
             print_sources (grounding_chunks metadata)
         | None => print "(No sources cited)"
         end
     end)
    (fun e => print ("❌ Error querying store: " ++ e)).

(** [create_store] *)
Definition create_store (display : string) : M unit :=
  print ("📦 Creating new File Search Store..." ++ nl) ;;
  try_except
    (store <- perform (StoresCreate display) ;;
     print ("✅ Store created successfully!" ++ nl) ;;
     print ("Display Name: " ++ store_display_name store) ;;
     print ("Store Name: " ++ store_name store) ;;
     print ("Created: " ++ store_create_time store) ;;
     print (nl ++ "You can now upload files to this store:") ;;
     print ("  python3 manage-filestore.py upload " ++ store_name store
            ++ " file1.pdf file2.pdf"))
    (fun e => print ("❌ Error creating store: " ++ e)).



(** The loop [for i, chunk in enumerate(...grounding_chunks, 1)] of
    [vector_search]. *)
Fixpoint print_matches (i : nat) (chunks : list GroundingChunk) : M unit :=
  match chunks with
  | [] => ret tt
  | chunk :: rest =>
      match file_search chunk with
      | Some fs =>
          print (str_of_nat i ++ ". " ++ doc_display_name (document fs)) ;;
          match page_range fs with
          | Some pages =>
              print ("   Pages: " ++ str_of_Z (start_page_index pages) ++ "-"
                     ++ str_of_Z (end_page_index pages))
          | None => ret tt
          end ;;
          print ""
      | None => ret tt
      end ;;
      print_matches (S i) rest
  end.

(** [vector_search]; its parameter [top_k] is not used by the body. *)
Definition vector_search (store query : string) (top_k : Z) : M unit :=
  print ("🔍 Searching store: " ++ store ++ nl) ;;
  print ("Query: " ++ query ++ nl) ;;
  try_except
    (print "ℹ️  Direct vector search API coming soon." ;;
     print ("   Using query with generation for now..." ++ nl) ;;
     response <- perform (GenerateContent "gemini-2.5-flash" query [store]) ;;
     match candidates response with
     | [] => raise "list index out of range"
     | candidate :: _ =>
         match grounding_metadata candidate with
         | Some metadata =>
             print ("📄 Matching Documents:" ++ nl) ;;
             print_matches 1 (grounding_chunks metadata)
         | None => ret tt
         end
     end)
    (fun e => print ("❌ Error: " ++ e)).

(** One element of [export_data] when all stores are exported. *)
Record ExportEntry := {
  export_display_name : string;
  export_name : string;
  export_create_time : string;
  export_document_count : nat
}.

(** [json.dumps(export_data, indent=2)] *)
Variable json_dumps : list ExportEntry -> string.

(** The loop [for store in stores: try: ... except: pass] that fills
    [export_data]. *)
Fixpoint export_each (stores : list Store) (export_data : list ExportEntry)
    : M (list ExportEntry) :=
  match stores with
  | [] => ret export_data
  | store :: rest =>
      export_data' <-
        try_except_all
          (docs <- perform (DocumentsList (store_name store)) ;;
           ret (export_data
                ++ [{| export_display_name := store_display_name store;
                       export_name := store_name store;
                       export_create_time := store_create_time store;
                       export_document_count := List.length docs |}])%list)
          (ret export_data) ;;
      export_each rest export_data'
  end.

(** [export_stores()] - the branch taken without a store name. *)
Definition export_all_stores : M unit :=
  stores <- perform StoresList ;;
  export_data <- export_each stores [] ;;
  print (json_dumps export_data).

End Manager.
End ManageFilestore.

(** * Observing a run *)

Section Observations.
Context {C : Client}.

(** [emits P m]: from any state, [m] only appends events to the trace, and
    all of them satisfy [P]. *)
Definition emits {A} (P : event -> Prop) (m : M A) : Prop :=
  forall s, exists new, trace (snd (m s)) = (trace s ++ new)%list /\ Forall P new.

End Observations.

(** The replies to [client.operations.get], in order. *)
Definition fetched_reply (ev : event) : list (exn + Operation) :=
  match ev with
  | Called c reply =>
      match c in call A return exn + A -> list (exn + Operation) with
      | OperationsGet _ => fun r => [r]
      | _ => fun _ => []
      end reply
  | _ => []
  end.

Definition fetched (evs : list event) : list (exn + Operation) :=
  flat_map fetched_reply evs.


(** ** A scripted client, for concrete runs

    The world is the number of [operations.get] calls answered so far; every
    other reply is fixed by the script. *)
Record Script := {
  existing_files : list string;
  on_create : exn + Store;
  on_list_stores : exn + list Store;
  on_list_documents : string -> exn + list Document;
  on_upload : string -> exn + Operation;
  on_import : string -> exn + Operation;
  on_get : nat -> exn + Operation;
  on_generate : string -> exn + Response;
  on_delete : string -> exn + unit;
  on_input : exn + string
}.

Definition scripted_remote (sc : Script) (A : Type) (n : nat) (c : call A)
    : nat * (exn + A) :=
  match c in call A return nat * (exn + A) with
  | StoresCreate _ => (n, on_create sc)
  | StoresList => (n, on_list_stores sc)
  | StoresDelete name _ => (n, on_delete sc name)
  | DocumentsList parent => (n, on_list_documents sc parent)
  | DeleteDocument name => (n, on_delete sc name)
  | UploadToFileSearchStore file _ _ => (n, on_upload sc file)
  | ImportFile _ file_name _ => (n, on_import sc file_name)
  | OperationsGet _ => (S n, on_get sc n)
  | GenerateContent _ contents _ => (n, on_generate sc contents)
  | Input _ => (n, on_input sc)
  end.

Definition scripted (sc : Script) : Client :=
  {| World := nat;
     remote := scripted_remote sc;
     path_exists := fun _ path => existsb (String.eqb path) (existing_files sc);
     elapse := fun n _ => n |}.

(** A script in which nothing exists and every call is refused. *)
Definition nothing : Script :=
  {| existing_files := [];
     on_create := inl "UNAVAILABLE";
     on_list_stores := inl "UNAVAILABLE";
     on_list_documents := fun _ => inl "UNAVAILABLE";
     on_upload := fun _ => inl "UNAVAILABLE";
     on_import := fun _ => inl "UNAVAILABLE";
     on_get := fun _ => inl "UNAVAILABLE";
     on_generate := fun _ => inl "UNAVAILABLE";
     on_delete := fun _ => inl "UNAVAILABLE";
     on_input := inl "EOF when reading a line" |}.

(** An operation that completed with an error, and one still running. *)
Definition failed_operation : Operation :=
  {| op_name := "fileSearchStores/kb/operations/op1";
     done := true;
     error := Some "INVALID_ARGUMENT: unsupported file";
     response := None |}.

Definition pending_operation : Operation :=
  {| op_name := "fileSearchStores/kb/operations/op2";
     done := false;
     error := None;
     response := None |}.

(** [report.pdf] exists, and its upload - like the import of [files/r1] -
    completes at once with an error. *)
Definition failing_ingestion : Script :=
  {| existing_files := ["report.pdf"; "samples/sample1.pdf"];
     on_create := inr {| store_name := "fileSearchStores/kb";
                         store_display_name := "Company Knowledge Base - Demo";
                         store_create_time := "2025-01-01" |};
     on_list_stores := on_list_stores nothing;
     on_list_documents := on_list_documents nothing;
     on_upload := fun _ => inr failed_operation;
     on_import := fun _ => inr failed_operation;
     on_get := on_get nothing;
     on_generate := on_generate nothing;
     on_delete := fun _ => inr tt;
     on_input := on_input nothing |}.



(** Running a script function against a scripted client, from the start. *)
Definition run (sc : Script) {A} (m : forall C : Client, @M C A)
    : result A * @state (scripted sc) :=
  m (scripted sc) (@start (scripted sc) 0%nat).

(** ** Confirmation and deletion *)

(** The reply to the confirmation prompt is the word yes, in any case. *)
Definition answered_yes (reply : exn + string) : bool :=
  match reply with
  | inr confirm => String.eqb (lower confirm) "yes"
  | inl _ => false
  end.

(** The events of a confirmed or unconfirmed deletion [deletion], the
    prompt having been answered with [reply] in the world [w]. *)
Definition confirmation_events {C : Client} (w : World) (reply : exn + string)
    (deletion : call unit) : list event :=
  Called (Input "   Type 'yes' to confirm: ") reply
  :: (if answered_yes reply
      then [Called deletion (snd (remote unit w deletion))]
      else []).

(** ** Citations, in the words of the specification

    The citations of a response are its grounding chunks that carry a
    document attribution, in the order of the response. *)
Definition attributed (chunk : GroundingChunk) : bool :=
  match file_search chunk with
  | Some _ => true
  | None => false
  end.


(** How one citation is shown: the document, then its pages if known. *)
Definition citation_lines (chunk : GroundingChunk) : list string :=
  match file_search chunk with
  | Some fs =>
      ("   • " ++ doc_display_name (document fs))
      :: match page_range fs with
         | Some pages =>
             ["     Pages: " ++ str_of_Z (start_page_index pages) ++ "-"
              ++ str_of_Z (end_page_index pages)]
         | None => []
         end
  | None => []
  end.

(** ** More scripts *)

Definition demo_store : Store :=
  {| store_name := "fileSearchStores/kb";
     store_display_name := "Company Knowledge Base - Demo";
     store_create_time := "2025-01-01" |}.

Definition finished_operation : Operation :=
  {| op_name := "fileSearchStores/kb/operations/op2";
     done := true;
     error := None;
     response := Some "documents/d1" |}.

(** The store can be created and deleted, and no sample file is there. *)
Definition no_samples : Script :=
  {| existing_files := [];
     on_create := inr demo_store;
     on_list_stores := on_list_stores nothing;
     on_list_documents := on_list_documents nothing;
     on_upload := on_upload nothing;
     on_import := on_import nothing;
     on_get := on_get nothing;
     on_generate := on_generate nothing;
     on_delete := fun _ => inr tt;
     on_input := on_input nothing |}.

Definition handbook : Document :=
  {| doc_name := "fileSearchStores/kb/documents/d1";
     doc_display_name := "handbook.pdf";
     size_bytes := Some 1048576%Z |}.

(** A response grounded on two chunks: one from a web source, without a
    document attribution, and one from [handbook.pdf], pages 2 to 4. *)
Definition grounded_response : Response :=
  {| text := Some "Forty-two.";
     candidates :=
       [{| grounding_metadata :=
             Some {| grounding_chunks :=
                       [{| file_search := None |};
                        {| file_search :=
                             Some {| document := handbook;
                                     page_range :=
                                       Some {| start_page_index := 2;
                                               end_page_index := 4 |} |} |}] |} |}] |}.


(** One sample file exists; its upload is done at the second fetch; every
    question is answered with [grounded_response]. *)
Definition one_sample : Script :=
  {| existing_files := ["samples/sample1.pdf"];
     on_create := inr demo_store;
     on_list_stores := on_list_stores nothing;
     on_list_documents := on_list_documents nothing;
     on_upload := fun _ => inr pending_operation;
     on_import := on_import nothing;
     on_get := fun n => inr (if (n <? 1)%nat then pending_operation
                             else finished_operation);
     on_generate := fun _ => inr grounded_response;
     on_delete := fun _ => inr tt;
     on_input := on_input nothing |}.


(** The user answers the prompt with [reply]; deletions succeed. *)
Definition answering (reply : string) : Script :=
  {| existing_files := [];
     on_create := on_create nothing;
     on_list_stores := on_list_stores nothing;
     on_list_documents := on_list_documents nothing;
     on_upload := on_upload nothing;
     on_import := on_import nothing;
     on_get := on_get nothing;
     on_generate := on_generate nothing;
     on_delete := fun _ => inr tt;
     on_input := inr reply |}.

(** ** Chunking configurations on the wire *)

(** An upload call carries the chunking literal of the scripts; any other
    event is unconstrained. *)
Definition carries_fixed_chunking (ev : event) : Prop :=
  match ev with
  | Called c _ =>
      match c with
      | UploadToFileSearchStore _ _ config =>
          chunking_config config = white_space_config
      | _ => True
      end
  | _ => True
  end.


Definition any_event (ev : event) : Prop := True.

(** All three sample files exist, and the remote refuses every upload. *)
Definition uploads_refused : Script :=
  {| existing_files := RagZero.sample_files;
     on_create := inr demo_store;
     on_list_stores := on_list_stores nothing;
     on_list_documents := on_list_documents nothing;
     on_upload := fun _ => inl "503 UNAVAILABLE";
     on_import := on_import nothing;
     on_get := on_get nothing;
     on_generate := on_generate nothing;
     on_delete := fun _ => inr tt;
     on_input := on_input nothing |}.

(** The files whose existence a run has probed, in order. *)
Definition probed_path (ev : event) : list string :=
  match ev with
  | Probed path _ => [path]
  | _ => []
  end.

Definition probed_paths (evs : list event) : list string :=
  flat_map probed_path evs.

(** ** Statistics *)



(** The stores whose documents a run has asked for, in order. *)
Definition listing_parent (ev : event) : list string :=
  match ev with
  | Called c _ =>
      match c with
      | DocumentsList parent => [parent]
      | _ => []
      end
  | _ => []
  end.

Definition listing_parents (evs : list event) : list string :=
  flat_map listing_parent evs.




Definition archive : Store :=
  {| store_name := "fileSearchStores/archive";
     store_display_name := "Archive";
     store_create_time := "2025-01-01" |}.

Definition manuals : Store :=
  {| store_name := "fileSearchStores/manuals";
     store_display_name := "Manuals";
     store_create_time := "2025-02-01" |}.

(** Two documents of 10 MB and 20 MB. *)
Definition manual_documents : list Document :=
  [{| doc_name := "fileSearchStores/manuals/documents/m1";
      doc_display_name := "install.pdf";
      size_bytes := Some (10 * 1024 * 1024)%Z |};
   {| doc_name := "fileSearchStores/manuals/documents/m2";
      doc_display_name := "operate.pdf";
      size_bytes := Some (20 * 1024 * 1024)%Z |}].

(** Two stores; the documents of [archive] are answered with
    [archive_reply], those of [manuals] are the two above. *)
Definition two_stores (archive_reply : exn + list Document) : Script :=
  {| existing_files := [];
     on_create := on_create nothing;
     on_list_stores := inr [archive; manuals];
     on_list_documents :=
       fun parent =>
         if String.eqb parent "fileSearchStores/archive" then archive_reply
         else inr manual_documents;
     on_upload := on_upload nothing;
     on_import := on_import nothing;
     on_get := on_get nothing;
     on_generate := on_generate nothing;
     on_delete := on_delete nothing;
     on_input := on_input nothing |}.



(** ** More observations *)

(** Probes that found the file, probes that did not, calls that raised. *)
Definition found (ev : event) : bool :=
  match ev with
  | Probed _ true => true
  | _ => false
  end.

Definition missing (ev : event) : bool :=
  match ev with
  | Probed _ false => true
  | _ => false
  end.

Definition raised (ev : event) : bool :=
  match ev with
  | Called _ (inl _) => true
  | _ => false
  end.

Definition found_count (evs : list event) : nat := List.length (filter found evs).

Definition missing_count (evs : list event) : nat := List.length (filter missing evs).

Definition raised_count (evs : list event) : nat := List.length (filter raised evs).

(** The file identifiers a run has asked to import, in order. *)
Definition import_id (ev : event) : list string :=
  match ev with
  | Called c _ =>
      match c with
      | ImportFile _ file_name _ => [file_name]
      | _ => []
      end
  | _ => []
  end.

Definition import_ids (evs : list event) : list string := flat_map import_id evs.

(** The questions a run has put to the model, in order. *)
Definition asked_question (ev : event) : list string :=
  match ev with
  | Called c _ =>
      match c with
      | GenerateContent _ contents _ => [contents]
      | _ => []
      end
  | _ => []
  end.

Definition asked (evs : list event) : list string := flat_map asked_question evs.

(** The replies to the document listings, in order. *)
Definition listing_reply (ev : event) : list (exn + list Document) :=
  match ev with
  | Called c reply =>
      match c in call A return exn + A -> list (exn + list Document) with
      | DocumentsList _ => fun r => [r]
      | _ => fun _ => []
      end reply
  | _ => []
  end.

Definition listing_replies (evs : list event) : list (exn + list Document) :=
  flat_map listing_reply evs.

(** The events of a completion wait whose fetches were answered with
    [replies]: two seconds of sleep before each fetch, and each fetch made
    with the state that the fetch before it returned. *)
Fixpoint poll_events (operation : Operation) (replies : list (exn + Operation))
    : list event :=
  match replies with
  | [] => []
  | reply :: rest =>
      Slept 2
      :: Called (OperationsGet operation) reply
      :: poll_events (match reply with
                      | inr next => next
                      | inl _ => operation
                      end) rest
  end.

(** The lines of one match of [vector_search], numbered [i]. *)
Definition match_lines (i : nat) (chunk : GroundingChunk) : list string :=
  match file_search chunk with
  | Some fs =>
      (str_of_nat i ++ ". " ++ doc_display_name (document fs))
      :: (match page_range fs with
          | Some pages =>
              [("   Pages: " ++ str_of_Z (start_page_index pages) ++ "-"
                ++ str_of_Z (end_page_index pages))%string]
          | None => []
          end
          ++ [""%string])%list
  | None => []
  end.

(** The grounding chunks with their positions in the response, from [i]. *)
Definition numbered (i : nat) (chunks : list GroundingChunk)
    : list (nat * GroundingChunk) :=
  combine (seq i (List.length chunks)) chunks.

(** The entries of an export: one for each store whose listing was
    answered. *)
Definition exported_entry (answered : Store * (exn + list Document))
    : list ManageFilestore.ExportEntry :=
  match snd answered with
  | inr docs =>
      [{| ManageFilestore.export_display_name := store_display_name (fst answered);
          ManageFilestore.export_name := store_name (fst answered);
          ManageFilestore.export_create_time := store_create_time (fst answered);
          ManageFilestore.export_document_count := List.length docs |}]
  | inl _ => []
  end.

Definition exported (stores : list Store) (replies : list (exn + list Document))
    : list ManageFilestore.ExportEntry :=
  flat_map exported_entry (combine stores replies).

(** The eight spellings that lower-case to the word yes. *)
Definition yes_spellings : list string :=
  ["yes"; "yeS"; "yEs"; "yES"; "Yes"; "YeS"; "YEs"; "YES"].

(** The questions the demo asks for a given [--query]. *)
Definition demo_questions (query : option string) : list string :=
  match query with
  | Some (String c rest) => [String c rest]
  | _ => RagZero.default_questions
  end.

(** The creation of the demo store is refused for lack of permission. *)
Definition permission_denied : Script :=
  {| existing_files := [];
     on_create := inl "403 PERMISSION_DENIED on projects/1234";
     on_list_stores := on_list_stores nothing;
     on_list_documents := on_list_documents nothing;
     on_upload := on_upload nothing;
     on_import := on_import nothing;
     on_get := on_get nothing;
     on_generate := on_generate nothing;
     on_delete := on_delete nothing;
     on_input := on_input nothing |}.

(** Two files exist out of three; the upload of the first is refused, the
    upload of the other is done at the second fetch. *)
Definition mixed_batch : Script :=
  {| existing_files := ["a.pdf"; "c.pdf"];
     on_create := on_create nothing;
     on_list_stores := on_list_stores nothing;
     on_list_documents := on_list_documents nothing;
     on_upload := fun file => if String.eqb file "a.pdf"
                              then inl "413 file too large"
                              else inr pending_operation;
     on_import := fun file => if String.eqb file "files/a"
                              then inl "404 no such file"
                              else inr finished_operation;
     on_get := fun n => inr (if (n <? 1)%nat then pending_operation
                             else finished_operation);
     on_generate := on_generate nothing;
     on_delete := on_delete nothing;
     on_input := on_input nothing |}.

(** A store listing that is empty, and one that is refused elsewhere than
    in [nothing]. *)
Definition no_stores : Script :=
  {| existing_files := [];
     on_create := on_create nothing;
     on_list_stores := inr [];
     on_list_documents := on_list_documents nothing;
     on_upload := on_upload nothing;
     on_import := on_import nothing;
     on_get := on_get nothing;
     on_generate := on_generate nothing;
     on_delete := on_delete nothing;
     on_input := on_input nothing |}.

(** A stand-in for [json.dumps] in concrete runs: the store names, one per
    line, each with its document count. *)
Definition names_and_counts (entries : list ManageFilestore.ExportEntry) : string :=
  String.concat nl
    (map (fun entry =>
            ManageFilestore.export_name entry ++ " "
            ++ str_of_nat (ManageFilestore.export_document_count entry))
       entries).

(** A stretch of events without probes, imports, questions or listings. *)
Definition quiet (evs : list event) : Prop :=
  probed_paths evs = [] /\ import_ids evs = [] /\ asked evs = []
  /\ listing_parents evs = []
  /\ found_count evs = 0%nat /\ missing_count evs = 0%nat.

(** What a whole upload loop has done when it stops. *)
Definition upload_tally (file_paths : list string) (uploaded : nat)
    (res : result nat) (new : list event) : Prop :=
  import_ids new = [] /\ asked new = [] /\ listing_parents new = []
  /\ match res with
     | Ret k =>
         probed_paths new = file_paths
         /\ (k + missing_count new + raised_count new
             = uploaded + List.length file_paths)%nat
         /\ (found_count new + missing_count new = List.length file_paths)%nat
     | Spin => exists rest, file_paths = (probed_paths new ++ rest)%list
     | _ => False
     end.

(** What a whole import loop has done when it stops. *)
Definition import_tally (file_ids : list string) (imported : nat)
    (res : result nat) (new : list event) : Prop :=
  probed_paths new = [] /\ asked new = [] /\ listing_parents new = []
  /\ match res with
     | Ret k =>
         import_ids new = file_ids
         /\ (imported <= k)%nat
         /\ (k + raised_count new <= imported + List.length file_ids)%nat
     | Spin => exists rest, file_ids = (import_ids new ++ rest)%list
     | _ => False
     end.

(** * Reasoning about runs *)

Section Runs.
Context {C : Client}.

Lemma bind_print {B} (line : string) (k : unit -> M B) (s : state) :
  bind (print line) k s = k tt (printed s line).
Proof. reflexivity. Qed.

Lemma bind_ret {A B} (a : A) (k : A -> M B) (s : state) :
  bind (ret a) k s = k a s.
Proof. reflexivity. Qed.

Lemma bind_probe {B} (path : string) (k : bool -> M B) (s : state) :
  bind (os_path_exists path) k s =
  k (path_exists (world s) path)
    (logged s (world s) (Probed path (path_exists (world s) path))).
Proof. reflexivity. Qed.

Lemma bind_sleep {B} (seconds : Z) (k : unit -> M B) (s : state) :
  bind (time_sleep seconds) k s =
  k tt (logged s (elapse (world s) seconds) (Slept seconds)).
Proof. reflexivity. Qed.

Lemma bind_assoc {A B D} (m : M A) (k : A -> M B) (h : B -> M D) (s : state) :
  bind (bind m k) h s = bind m (fun a => bind (k a) h) s.
Proof.
  unfold bind. destruct (m s) as [[a | e | code | ] s1]; reflexivity.
Qed.

(** A call either answers or raises; the state records which. *)
Lemma perform_cases {A} (c : call A) (s : state) :
  (exists w a, remote A (world s) c = (w, inr a)
               /\ perform c s = (Ret a, logged s w (Called c (inr a))))
  \/ (exists w e, remote A (world s) c = (w, inl e)
                  /\ perform c s = (Raise e, logged s w (Called c (inl e)))).
Proof.
  unfold perform. destruct (remote A (world s) c) as [w [e | a]].
  - right. exists w, e. split; reflexivity.
  - left. exists w, a. split; reflexivity.
Qed.

Lemma bind_ret_inv {A B} (m : M A) (k : A -> M B) (s s' : state) (b : B) :
  bind m k s = (Ret b, s') ->
  exists a s1, m s = (Ret a, s1) /\ k a s1 = (Ret b, s').
Proof.
  unfold bind. destruct (m s) as [[a | e | code | ] s1]; intro H;
    try discriminate.
  exists a, s1. split; [reflexivity | exact H].
Qed.

(** ** What a computation may add to the trace *)

Lemma emits_ret {A} P (a : A) : emits P (ret a).
Proof. intro s. exists []. simpl. rewrite app_nil_r. auto. Qed.

Lemma emits_raise {A} P (e : exn) : emits P (@raise C A e).
Proof. intro s. exists []. simpl. rewrite app_nil_r. auto. Qed.

Lemma emits_exit {A} P (code : Z) : emits P (@exit C A code).
Proof. intro s. exists []. simpl. rewrite app_nil_r. auto. Qed.

Lemma emits_spin {A} P : emits P (@spin C A).
Proof. intro s. exists []. simpl. rewrite app_nil_r. auto. Qed.

Lemma emits_print P (line : string) : emits P (print line).
Proof. intro s. exists []. simpl. rewrite app_nil_r. auto. Qed.

Lemma emits_perform {A} (P : event -> Prop) (c : call A) :
  (forall reply, P (Called c reply)) -> emits P (perform c).
Proof.
  intros H s. unfold perform.
  destruct (remote A (world s) c) as [w [e | a]]; simpl;
    eexists; (split; [reflexivity | auto]).
Qed.

Lemma emits_probe (P : event -> Prop) (path : string) :
  (forall found, P (Probed path found)) -> emits P (os_path_exists path).
Proof. intros H s. simpl. eexists. split; [reflexivity | auto]. Qed.

Lemma emits_sleep (P : event -> Prop) (seconds : Z) :
  P (Slept seconds) -> emits P (time_sleep seconds).
Proof. intros H s. simpl. eexists. split; [reflexivity | auto]. Qed.

Lemma emits_bind {A B} P (m : M A) (k : A -> M B) :
  emits P m -> (forall a, emits P (k a)) -> emits P (bind m k).
Proof.
  intros Hm Hk s. unfold bind. destruct (Hm s) as [new1 [E1 F1]].
  destruct (m s) as [[a | e | code | ] s1]; simpl in *;
    try (exists new1; split; assumption).
  destruct (Hk a s1) as [new2 [E2 F2]].
  exists (new1 ++ new2)%list. split.
  - rewrite E2, E1, app_assoc. reflexivity.
  - apply Forall_app. split; assumption.
Qed.

Lemma emits_try_except {A} P (m : M A) (h : exn -> M A) :
  emits P m -> (forall e, emits P (h e)) -> emits P (try_except m h).
Proof.
  intros Hm Hh s. unfold try_except. destruct (Hm s) as [new1 [E1 F1]].
  destruct (m s) as [[a | e | code | ] s1]; simpl in *;
    try (exists new1; split; assumption).
  destruct (Hh e s1) as [new2 [E2 F2]].
  exists (new1 ++ new2)%list. split.
  - rewrite E2, E1, app_assoc. reflexivity.
  - apply Forall_app. split; assumption.
Qed.

Lemma emits_try_except_all {A} P (m h : M A) :
  emits P m -> emits P h -> emits P (try_except_all m h).
Proof.
  intros Hm Hh s. unfold try_except_all. destruct (Hm s) as [new1 [E1 F1]].
  destruct (m s) as [[a | e | code | ] s1]; simpl in *;
    try (exists new1; split; assumption);
    destruct (Hh s1) as [new2 [E2 F2]];
    exists (new1 ++ new2)%list; (split;
      [rewrite E2, E1, app_assoc; reflexivity | apply Forall_app; split; assumption]).
Qed.

Lemma emits_wait P (fuel : nat) :
  P (Slept 2) ->
  (forall operation reply, P (Called (OperationsGet operation) reply)) ->
  forall operation, emits P (wait_until_done fuel operation).
Proof.
  intros Hs Hg. induction fuel as [| fuel IH]; intro operation; simpl;
    destruct (done operation).
  - apply emits_ret.
  - apply emits_spin.
  - apply emits_ret.
  - apply emits_bind; [apply emits_sleep; assumption | intros _].
    apply emits_bind; [apply emits_perform; apply Hg | apply IH].
Qed.

End Runs.

(** * The completion wait *)

Section Wait.
Context {C : Client}.

(** The loop hands back an operation only in a state that reports [done]. *)
Lemma wait_returns_done (fuel : nat) :
  forall operation s operation' s',
    wait_until_done fuel operation s = (Ret operation', s') ->
    done operation' = true.
Proof.
  induction fuel as [| fuel IH]; intros operation s operation' s'; simpl;
    destruct (done operation) eqn:D.
  - intro H. inversion H. subst. exact D.
  - discriminate.
  - intro H. inversion H. subst. exact D.
  - rewrite bind_sleep. intro H.
    apply bind_ret_inv in H. destruct H as [op1 [s1 [_ H]]].
    eapply IH. exact H.
Qed.

End Wait.

Section WaitOutcome.
Context {C : Client}.



End WaitOutcome.

(** ** Claim C1: what is reported once an operation is done *)

(** C1 (code at the failing input).  The claim asks for the outcome Failed
    exactly when the finished operation carries an error.  Here the upload
    of [report.pdf] answers at once with an operation that is [done] and
    carries an error: [upload_files] issues no fetch, prints
    "Uploaded successfully" and counts the file (1/1), and the demo's
    [main] counts its sample file as uploaded too. *)
Theorem upload_reports_failed_operation_as_success :
  let upload :=
    run failing_ingestion
      (fun _ => ManageFilestore.upload_files 3 "fileSearchStores/kb" ["report.pdf"]) in
  let demo :=
    run failing_ingestion (fun _ => RagZero.main 3 "gemini-2.5-flash" None) in
  error failed_operation <> None
  /\ fst upload = Ret tt
  /\ fetched (trace (snd upload)) = []
  /\ out (snd upload) =
       ["📤 Uploading files to store: fileSearchStores/kb" ++ nl;
        "   Uploading report.pdf...";
        "   ✅ Uploaded successfully";
        nl ++ "✅ Uploaded 1/1 files"]
  /\ In "   ✅ Uploaded 1 file(s)" (out (snd demo)).
Proof.
  split; [discriminate |].
  split; [reflexivity |].
  split; [reflexivity |].
  split; [reflexivity |].
  vm_compute. tauto.
Qed.

(** The sibling loop does branch on the error: [import_files] reports the
    same operation as failed and does not count it. *)
Lemma import_reports_failed_operation_as_failed :
  out (snd (run failing_ingestion
              (fun _ => ManageFilestore.import_files 3 "fileSearchStores/kb"
                          ["files/r1"] None))) =
    ["📥 Importing files to store: fileSearchStores/kb" ++ nl;
     "   Importing files/r1...";
     "   ❌ Failed: INVALID_ARGUMENT: unsupported file";
     nl ++ "✅ Imported 0/1 files"].
Proof. reflexivity. Qed.

(** ** Claim C8: the wait has no time bound *)




(** ** Claim C5: deletion and confirmation *)

Section Deletion.
Context {C : Client}.

Lemma confirmed_deletion (s : state) (deletion : call unit)
    (before after cancelled : string) (failed : exn -> string) :
  let m :=
    try_except
      (confirm <- perform (Input "   Type 'yes' to confirm: ") ;;
       if String.eqb (lower confirm) "yes" then
         perform deletion ;; print after
       else print cancelled)
      (fun e => print (failed e)) in
  let '(w, reply) := remote string (world s) (Input "   Type 'yes' to confirm: ") in
  fst (m s) = Ret tt
  /\ trace (snd (m s)) = (trace s ++ confirmation_events w reply deletion)%list.
Proof.
  intro m. unfold m, try_except, bind, perform, confirmation_events, answered_yes.
  destruct (remote string (world s) (Input "   Type 'yes' to confirm: "))
    as [w [e | confirm]]; simpl.
  - split; reflexivity.
  - destruct (String.eqb (lower confirm) "yes"); simpl.
    + destruct (remote unit w deletion) as [w' [e | []]]; simpl;
        (split; [reflexivity | rewrite <- app_assoc; reflexivity]).
    + split; reflexivity.
Qed.

End Deletion.



(** * Traces of the loops *)

Lemma trace_grows {C : Client} {A} (P : event -> Prop) (m : M A)
    (s s' : state) (r : result A) :
  emits P m -> m s = (r, s') ->
  exists new, trace s' = (trace s ++ new)%list /\ Forall P new.
Proof.
  intros Hm E. destruct (Hm s) as [new [Et Hf]]. rewrite E in Et.
  exists new. split; assumption.
Qed.

(** Decomposes a computation into its steps, leaving the conditions on the
    events themselves. *)
Ltac emits_steps :=
  repeat first
    [ apply emits_ret | apply emits_raise | apply emits_exit | apply emits_spin
    | apply emits_print
    | apply emits_bind; [| intro]
    | apply emits_try_except; [| intro]
    | apply emits_try_except_all
    | apply emits_wait
    | apply emits_perform; intro
    | apply emits_probe; intro
    | apply emits_sleep
    | match goal with
      | |- emits _ (if ?b then _ else _) => destruct b
      | |- emits _ (match ?x with _ => _ end) => destruct x
      end ];
  try (intros; simpl; auto; exact I).

Section LoopTraces.
Context {C : Client}.

Lemma upload_samples_emits (fuel : nat) (store : string) (files : list string) :
  forall uploaded_count,
    emits carries_fixed_chunking
      (RagZero.upload_samples fuel store files uploaded_count).
Proof.
  induction files as [| file_path rest IH]; intro uploaded_count; simpl.
  - apply emits_ret.
  - apply emits_bind; [emits_steps | intros [|]]; emits_steps; apply IH.
Qed.

Lemma demo_print_sources_emits (chunks : list GroundingChunk) :
  emits carries_fixed_chunking (RagZero.print_sources chunks).
Proof.
  induction chunks as [| chunk rest IH]; simpl.
  - apply emits_ret.
  - destruct (file_search chunk); emits_steps; apply IH.
Qed.

Lemma ask_emits (model_name store : string) (questions : list string) :
  emits carries_fixed_chunking (RagZero.ask model_name store questions).
Proof.
  induction questions as [| q rest IH]; simpl.
  - apply emits_ret.
  - apply emits_bind; [emits_steps | intros _].
    apply emits_bind; [emits_steps | intro response].
    apply emits_bind; [emits_steps | intros _].
    apply emits_bind; [| intros _; apply IH].
    destruct (candidates response) as [| candidate others]; [emits_steps |].
    destruct (grounding_metadata candidate); emits_steps.
    apply demo_print_sources_emits.
Qed.





End LoopTraces.

(** ** Claim C3: the chunking configuration *)



(** ** Claim C4: one file's failure and the files after it *)

(** C4 (code at the failing input).  All three sample files exist and the
    remote refuses uploads.  The demo's [main] has no handler around the
    upload: the exception of the first file ends the run, the second and
    third files are never looked at, and the store just created is not
    deleted.  [upload_files], given the same three files, probes and
    submits each of them and reports 0/3. *)
Theorem demo_stops_at_first_failed_upload :
  let demo := run uploads_refused (fun _ => RagZero.main 3 "gemini-2.5-flash" None) in
  let manager :=
    run uploads_refused
      (fun _ => ManageFilestore.upload_files 3 "fileSearchStores/kb"
                  RagZero.sample_files) in
  fst demo = Raise "503 UNAVAILABLE"
  /\ probed_paths (trace (snd demo)) = ["samples/sample1.pdf"]
  /\ trace (snd demo) =
       [Called (StoresCreate "Company Knowledge Base - Demo") (inr demo_store);
        Probed "samples/sample1.pdf" true;
        Called (UploadToFileSearchStore "samples/sample1.pdf" "fileSearchStores/kb"
                  (upload_config "samples/sample1.pdf" None))
          (inl "503 UNAVAILABLE")]
  /\ fst manager = Ret tt
  /\ probed_paths (trace (snd manager)) = RagZero.sample_files
  /\ last (out (snd manager)) "" = nl ++ "✅ Uploaded 0/3 files".
Proof. repeat split; reflexivity. Qed.

(** ** Claims C9 and C10: the demo cleans up after itself *)

Section DemoCleanup.
Context {C : Client}.

(** When none of [files] exists, the upload loop only probes and warns. *)
Lemma upload_samples_nothing_there (fuel : nat) (store : string) (files : list string) :
  forall uploaded_count s,
    (forall f, In f files -> path_exists (world s) f = false) ->
    RagZero.upload_samples fuel store files uploaded_count s =
    (Ret uploaded_count,
     {| world := world s;
        trace := trace s ++ map (fun f => Probed f false) files;
        out := out s ++ map (fun f => "   ⚠️  File not found: " ++ f) files |}).
Proof.
  induction files as [| file_path rest IH]; intros uploaded_count s H; simpl.
  - rewrite !app_nil_r. destruct s. reflexivity.
  - rewrite bind_probe, (H file_path (or_introl eq_refl)), bind_print.
    rewrite IH by (intros f Hf; apply H; right; exact Hf).
    simpl. rewrite <- !app_assoc. reflexivity.
Qed.

(** The handler around the creation never resumes the run. *)
Lemma create_failed_stops (error_str : exn) (s s' : state) (store : Store) :
  RagZero.create_failed error_str s <> (Ret store, s').
Proof.
  unfold RagZero.create_failed.
  destruct (contains "PERMISSION_DENIED" error_str
            || contains "SERVICE_DISABLED" error_str);
    [| destruct (contains "API_KEY_INVALID" error_str)];
    repeat rewrite bind_print; discriminate.
Qed.

Lemma create_returned (s s1 : state) (store : Store) :
  try_except (perform (StoresCreate "Company Knowledge Base - Demo"))
    RagZero.create_failed s = (Ret store, s1) ->
  exists w,
    s1 = logged s w (Called (StoresCreate "Company Knowledge Base - Demo") (inr store)).
Proof.
  unfold try_except.
  destruct (perform_cases (StoresCreate "Company Knowledge Base - Demo") s)
    as [[w [a [_ Ep]]] | [w [e [_ Ep]]]]; rewrite Ep; intro H.
  - inversion H. subst. exists w. reflexivity.
  - exfalso. exact (create_failed_stops _ _ _ _ H).
Qed.

Lemma delete_returned (name : string) (s s1 : state) (u : unit) :
  perform (StoresDelete name true) s = (Ret u, s1) ->
  trace s1 = (trace s ++ [Called (StoresDelete name true) (inr tt)])%list.
Proof.
  destruct (perform_cases (StoresDelete name true) s)
    as [[w [[] [_ Ep]]] | [w [e [_ Ep]]]]; rewrite Ep; intro H;
    inversion H. reflexivity.
Qed.

(** The whole run of the demo when no sample file exists. *)
Lemma demo_without_files_run (fuel : nat) (model_name : string)
    (query : option string) (s : state) (w : World) (store : Store) :
  remote Store (world s) (StoresCreate "Company Knowledge Base - Demo")
    = (w, inr store) ->
  (forall f, In f RagZero.sample_files -> path_exists w f = false) ->
  RagZero.main fuel model_name query s =
  (match snd (remote unit w (StoresDelete (store_name store) true)) with
   | inr _ => Ret tt
   | inl e => Raise e
   end,
   {| world := fst (remote unit w (StoresDelete (store_name store) true));
      trace :=
        trace s
        ++ [Called (StoresCreate "Company Knowledge Base - Demo") (inr store);
            Probed "samples/sample1.pdf" false;
            Probed "samples/sample2.pdf" false;
            Probed "samples/sample3.pdf" false;
            Called (StoresDelete (store_name store) true)
              (snd (remote unit w (StoresDelete (store_name store) true)))];
      out :=
        out s
        ++ ["🚀 Creating File Search Store in Gemini using " ++ model_name ++ " ("
            ++ (if String.eqb model_name "gemini-2.5-flash"
                then "Flash (fast & cost-effective)" else "Pro (most capable)")
            ++ ")...";
            "   Store created: " ++ store_name store;
            nl ++ "📂 Uploading sample documents...";
            "   Note: This demo expects PDF files in the 'samples/' directory.";
            "   Add your own PDFs there, or modify the file paths below.";
            "   ⚠️  File not found: samples/sample1.pdf";
            "   ⚠️  File not found: samples/sample2.pdf";
            "   ⚠️  File not found: samples/sample3.pdf";
            nl ++ "   ❌ No files were uploaded. Please add PDF files to the 'samples/' directory.";
            "   Cleaning up and exiting..."] |}).
Proof.
  intros Hcreate Hmissing. unfold RagZero.main.
  rewrite bind_print. unfold bind at 1. unfold try_except, perform at 1.
  cbn [world printed logged]. rewrite Hcreate.
  repeat rewrite bind_print. unfold bind at 1.
  rewrite upload_samples_nothing_there by exact Hmissing.
  cbv beta iota. change (0 =? 0)%nat with true. cbv iota.
  repeat rewrite bind_print.
  unfold bind, perform, ret. cbn [world printed logged].
  destruct (remote unit w (StoresDelete (store_name store) true))
    as [w' [e | []]]; unfold logged, printed; cbn [fst snd world trace out];
    rewrite <- ?app_assoc; reflexivity.
Qed.

End DemoCleanup.

(** C9.  When none of the demo's sample files exists, the batch is not
    reported as a success: the run says that no files were uploaded and
    that it is cleaning up, asks the remote to delete - with [force] - the
    store it has just created, and returns without asking any question.
    The deletion is the only remote call after the creation. *)
Theorem demo_without_files_deletes_its_store {C : Client} (fuel : nat)
    (model_name : string) (query : option string) (s : state)
    (w : World) (store : Store) :
  remote Store (world s) (StoresCreate "Company Knowledge Base - Demo")
    = (w, inr store) ->
  (forall f, In f RagZero.sample_files -> path_exists w f = false) ->
  let deletion := StoresDelete (store_name store) true in
  let r := RagZero.main fuel model_name query s in
  trace (snd r) =
    (trace s
     ++ [Called (StoresCreate "Company Knowledge Base - Demo") (inr store);
         Probed "samples/sample1.pdf" false;
         Probed "samples/sample2.pdf" false;
         Probed "samples/sample3.pdf" false;
         Called deletion (snd (remote unit w deletion))])%list
  /\ skipn 8 (skipn (List.length (out s)) (out (snd r))) =
       [nl ++ "   ❌ No files were uploaded. Please add PDF files to the 'samples/' directory.";
        "   Cleaning up and exiting..."]
  /\ fst r = match snd (remote unit w deletion) with
             | inr _ => Ret tt
             | inl e => Raise e
             end.
Proof.
  intros Hcreate Hmissing deletion r. unfold r.
  rewrite (demo_without_files_run fuel model_name query s w store Hcreate Hmissing).
  fold deletion. cbn [fst snd trace out].
  split; [reflexivity | split].
  - rewrite skipn_app, skipn_all, Nat.sub_diag. reflexivity.
  - destruct (remote unit w deletion) as [w' [e | []]]; reflexivity.
Qed.

Lemma demo_without_files_deletes_its_store_witness :
  let r := run no_samples (fun _ => RagZero.main 3 "gemini-2.5-pro" None) in
  trace (snd r) =
    [Called (StoresCreate "Company Knowledge Base - Demo") (inr demo_store);
     Probed "samples/sample1.pdf" false;
     Probed "samples/sample2.pdf" false;
     Probed "samples/sample3.pdf" false;
     Called (StoresDelete "fileSearchStores/kb" true) (inr tt)]
  /\ skipn 8 (out (snd r)) =
       [nl ++ "   ❌ No files were uploaded. Please add PDF files to the 'samples/' directory.";
        "   Cleaning up and exiting..."]
  /\ fst r = Ret tt.
Proof.
  apply (@demo_without_files_deletes_its_store (scripted no_samples) 3
           "gemini-2.5-pro" None (@start (scripted no_samples) 0%nat)
           0%nat demo_store).
  - reflexivity.
  - intros f Hf. reflexivity.
Defined.

(** C10.  A run of the demo's [main] that returns normally has created a
    store and, as its last remote call, has asked for the forced deletion
    of that very store, which the remote acknowledged - on the path without
    uploads as on the path through the questions. *)
Theorem demo_return_follows_store_deletion {C : Client} (fuel : nat)
    (model_name : string) (query : option string) (s s' : state) :
  RagZero.main fuel model_name query s = (Ret tt, s') ->
  exists store between,
    trace s' =
      (trace s
       ++ Called (StoresCreate "Company Knowledge Base - Demo") (inr store)
       :: between
       ++ [Called (StoresDelete (store_name store) true) (inr tt)])%list.
Proof.
  unfold RagZero.main. rewrite bind_print. intro H.
  apply bind_ret_inv in H. destruct H as [store [s1 [Hcreate H]]].
  apply create_returned in Hcreate. destruct Hcreate as [w Hs1].
  repeat rewrite bind_print in H.
  apply bind_ret_inv in H. destruct H as [uploaded_count [s2 [Hupload H]]].
  destruct (trace_grows _ _ _ _ _
              (upload_samples_emits fuel (store_name store) RagZero.sample_files 0)
              Hupload) as [new1 [Et1 _]].
  rewrite Hs1 in Et1. cbn [trace printed logged] in Et1.
  exists store.
  destruct (uploaded_count =? 0)%nat.
  - repeat rewrite bind_print in H.
    apply bind_ret_inv in H. destruct H as [u [s3 [Hdelete H]]].
    inversion H; subst s'. apply delete_returned in Hdelete.
    cbn [trace printed] in Hdelete. exists new1.
    rewrite Hdelete, Et1, <- !app_assoc. reflexivity.
  - repeat rewrite bind_print in H.
    apply bind_ret_inv in H. destruct H as [u [s3 [Hask H]]].
    destruct (trace_grows _ _ _ _ _ (ask_emits _ _ _) Hask) as [new2 [Et2 _]].
    cbn [trace printed] in Et2.
    rewrite bind_print in H.
    apply bind_ret_inv in H. destruct H as [u' [s4 [Hdelete H]]].
    inversion H; subst s'. apply delete_returned in Hdelete.
    cbn [trace printed] in Hdelete. exists (new1 ++ new2)%list.
    cbn [trace printed]. rewrite Hdelete, Et2, Et1, <- !app_assoc. reflexivity.
Qed.

Lemma demo_return_follows_store_deletion_witness :
  let demo := run one_sample (fun _ => RagZero.main 3 "gemini-2.5-flash" (Some "Why?")) in
  fst demo = Ret tt
  /\ exists store between,
       trace (snd demo) =
         (Called (StoresCreate "Company Knowledge Base - Demo") (inr store)
          :: between
          ++ [Called (StoresDelete (store_name store) true) (inr tt)])%list.
Proof.
  split; [reflexivity |].
  apply (@demo_return_follows_store_deletion (scripted one_sample) 3
           "gemini-2.5-flash" (Some "Why?") (@start (scripted one_sample) 0%nat)).
  reflexivity.
Defined.

(** ** Claim C6: citations of a query *)

Section Citations.
Context {C : Client}.

Lemma print_chunk_lines (chunk : GroundingChunk) (s : state) :
  ManageFilestore.print_chunk chunk s =
  (Ret tt,
   {| world := world s; trace := trace s; out := out s ++ citation_lines chunk |}).
Proof.
  unfold ManageFilestore.print_chunk, citation_lines.
  destruct (file_search chunk) as [fs |]; [destruct (page_range fs) as [pages |] |];
    unfold bind, print, printed, ret; cbn [world trace out];
    rewrite <- ?app_assoc, ?app_nil_r; try reflexivity.
  destruct s. reflexivity.
Qed.

Lemma citations_cons (chunk : GroundingChunk) (rest : list GroundingChunk) :
  flat_map citation_lines (filter attributed (chunk :: rest)) =
  (citation_lines chunk ++ flat_map citation_lines (filter attributed rest))%list.
Proof.
  simpl. unfold attributed, citation_lines at 2.
  destruct (file_search chunk) eqn:E; simpl.
  - unfold citation_lines at 1. rewrite E. reflexivity.
  - reflexivity.
Qed.

(** The loop over the grounding chunks prints the lines of the attributed
    chunks, in order, and nothing for the others. *)
Lemma print_sources_prints_citations (chunks : list GroundingChunk) :
  forall s,
    ManageFilestore.print_sources chunks s =
    (Ret tt,
     {| world := world s;
        trace := trace s;
        out := out s ++ flat_map citation_lines (filter attributed chunks) |}).
Proof.
  induction chunks as [| chunk rest IH]; intro s.
  - simpl. rewrite app_nil_r. destruct s. reflexivity.
  - rewrite citations_cons. cbn [ManageFilestore.print_sources].
    unfold bind. rewrite print_chunk_lines, IH. cbn [world trace out].
    rewrite <- app_assoc. reflexivity.
Qed.


End Citations.



(** ** Claims C2 and C7: statistics *)







Section Statistics.
Context {C : Client}.




End Statistics.

Section StoreStatistics.
Context {C : Client}.


End StoreStatistics.









(** * Further properties of the scripts *)

(** ** The shape of a completion wait *)

(** X1.  A completion wait does nothing but poll: its events are, for each
    fetch, two seconds of sleep followed by the fetch, and each fetch is
    made with the state that the previous fetch returned (the first with
    the submitted operation).  There are no more fetches than iterations
    allowed, and none at all when the operation is already done. *)
Theorem wait_sleeps_then_fetches {C : Client} (fuel : nat) :
  forall (operation : Operation) (s : state),
  exists replies,
    trace (snd (wait_until_done fuel operation s))
      = (trace s ++ poll_events operation replies)%list
    /\ (List.length replies <= fuel)%nat
    /\ (done operation = true -> replies = []).
Proof.
  induction fuel as [| fuel IH]; intros operation s; simpl;
    destruct (done operation) eqn:D;
    try (exists []; simpl; rewrite app_nil_r;
         repeat split; auto; try lia; discriminate).
  rewrite bind_sleep.
  set (s0 := logged s (elapse (world s) 2) (Slept 2)).
  destruct (perform_cases (OperationsGet operation) s0)
    as [[w [a [_ Ep]]] | [w [e [_ Ep]]]]; unfold bind; rewrite Ep.
  - destruct (IH a (logged s0 w (Called (OperationsGet operation) (inr a))))
      as [replies [Et [Hn _]]].
    exists (inr a :: replies). split; [| split].
    + rewrite Et. simpl. rewrite <- !app_assoc. reflexivity.
    + simpl. lia.
    + discriminate.
  - exists [inl e]. simpl. split; [| split].
    + rewrite <- app_assoc. reflexivity.
    + lia.
    + discriminate.
Qed.

(** ** Counting what a batch did *)

Lemma probed_paths_app (evs more : list event) :
  probed_paths (evs ++ more) = (probed_paths evs ++ probed_paths more)%list.
Proof. apply flat_map_app. Qed.

Lemma import_ids_app (evs more : list event) :
  import_ids (evs ++ more) = (import_ids evs ++ import_ids more)%list.
Proof. apply flat_map_app. Qed.

Lemma asked_app (evs more : list event) :
  asked (evs ++ more) = (asked evs ++ asked more)%list.
Proof. apply flat_map_app. Qed.

Lemma listing_parents_app (evs more : list event) :
  listing_parents (evs ++ more) = (listing_parents evs ++ listing_parents more)%list.
Proof. apply flat_map_app. Qed.

Lemma listing_replies_app (evs more : list event) :
  listing_replies (evs ++ more) = (listing_replies evs ++ listing_replies more)%list.
Proof. apply flat_map_app. Qed.

Lemma found_count_app (evs more : list event) :
  found_count (evs ++ more) = (found_count evs + found_count more)%nat.
Proof. unfold found_count. rewrite filter_app, length_app. reflexivity. Qed.

Lemma missing_count_app (evs more : list event) :
  missing_count (evs ++ more) = (missing_count evs + missing_count more)%nat.
Proof. unfold missing_count. rewrite filter_app, length_app. reflexivity. Qed.

Lemma raised_count_app (evs more : list event) :
  raised_count (evs ++ more) = (raised_count evs + raised_count more)%nat.
Proof. unfold raised_count. rewrite filter_app, length_app. reflexivity. Qed.

Lemma quiet_nil : quiet [].
Proof. repeat split. Qed.

Lemma quiet_app (evs more : list event) :
  quiet evs -> quiet more -> quiet (evs ++ more).
Proof.
  intros [H1 [H2 [H3 [H4 [H5 H6]]]]] [K1 [K2 [K3 [K4 [K5 K6]]]]].
  unfold quiet.
  rewrite probed_paths_app, import_ids_app, asked_app, listing_parents_app,
    found_count_app, missing_count_app.
  rewrite H1, H2, H3, H4, H5, H6, K1, K2, K3, K4, K5, K6. repeat split.
Qed.

Section Tallies.
Context {C : Client}.

(** A completion wait is quiet, and holds one raising call exactly when it
    ends with an exception. *)
Lemma wait_tally (fuel : nat) :
  forall operation s res s',
    wait_until_done fuel operation s = (res, s') ->
    exists new,
      trace s' = (trace s ++ new)%list
      /\ quiet new
      /\ match res with
         | Ret _ => raised_count new = 0%nat
         | Spin => raised_count new = 0%nat
         | Raise _ => raised_count new = 1%nat
         | Exit _ => False
         end.
Proof.
  induction fuel as [| fuel IH]; intros operation s res s' H; simpl in H;
    destruct (done operation).
  - inversion H; subst. exists []. rewrite app_nil_r.
    repeat split; reflexivity.
  - inversion H; subst. exists []. rewrite app_nil_r.
    repeat split; reflexivity.
  - inversion H; subst. exists []. rewrite app_nil_r.
    repeat split; reflexivity.
  - rewrite bind_sleep in H. unfold bind in H.
    set (s0 := logged s (elapse (world s) 2) (Slept 2)) in H.
    destruct (perform_cases (OperationsGet operation) s0)
      as [[w [a [_ Ep]]] | [w [e [_ Ep]]]]; rewrite Ep in H.
    + apply IH in H. destruct H as [new [Et [Hq Hr]]].
      exists ([Slept 2; Called (OperationsGet operation) (inr a)] ++ new)%list.
      split; [| split].
      * rewrite Et. simpl. rewrite <- !app_assoc. reflexivity.
      * apply quiet_app; [repeat split | exact Hq].
      * rewrite raised_count_app. destruct res; simpl; auto.
    + inversion H; subst.
      exists [Slept 2; Called (OperationsGet operation) (inl e)].
      split; [| split].
      * simpl. rewrite <- app_assoc. reflexivity.
      * repeat split.
      * reflexivity.
Qed.

(** One attempt of the upload loops: submit, wait, count; any exception is
    reported and the counter is left as it was. *)
Lemma upload_attempt_tally (c : call Operation) (fuel n : nat) (a b : string)
    (mid : option string) (h : exn -> string) (s : state) (res : result nat)
    (s' : state) :
  (forall reply, quiet [Called c reply]) ->
  try_except
    (print a ;;
     operation <- perform c ;;
     match mid with
     | Some line => print line
     | None => ret tt
     end ;;
     _ <- wait_until_done fuel operation ;;
     print b ;;
     ret (S n))
    (fun e => print (h e) ;; ret n) s = (res, s') ->
  exists new,
    trace s' = (trace s ++ new)%list
    /\ quiet new
    /\ match res with
       | Ret k => (k + raised_count new = S n)%nat
       | Spin => True
       | _ => False
       end.
Proof.
  intros Hc H. unfold try_except in H. rewrite bind_print in H.
  unfold bind at 1 in H.
  destruct (perform_cases c (printed s a))
    as [[w [operation [_ Ep]]] | [w [e [_ Ep]]]]; rewrite Ep in H.
  - assert (Hmid : forall (k : unit -> M nat) st,
               bind (match mid with
                     | Some line => print line
                     | None => ret tt
                     end) k st
               = k tt (match mid with
                       | Some line => printed st line
                       | None => st
                       end)) by (intros; destruct mid; reflexivity).
    rewrite Hmid in H. unfold bind at 1 in H.
    set (s1 := match mid with
               | Some line => printed (logged (printed s a) w
                                         (Called c (inr operation))) line
               | None => logged (printed s a) w (Called c (inr operation))
               end) in H.
    assert (Ht1 : trace s1 = (trace s ++ [Called c (inr operation)])%list)
      by (unfold s1; destruct mid; reflexivity).
    destruct (wait_until_done fuel operation s1) as [[last | e | code | ] s2] eqn:Ew;
      destruct (wait_tally fuel operation s1 _ _ Ew) as [new [Et [Hq Hr]]].
    + rewrite bind_print in H. inversion H; subst.
      exists (Called c (inr operation) :: new). split; [| split].
      * cbn [trace printed]. rewrite Et, Ht1, <- app_assoc. reflexivity.
      * apply (quiet_app [_] new); [apply Hc | exact Hq].
      * change (Called c (inr operation) :: new)
          with ([Called c (inr operation)] ++ new)%list.
        rewrite raised_count_app, Hr. simpl. lia.
    + rewrite bind_print in H. inversion H; subst.
      exists (Called c (inr operation) :: new). split; [| split].
      * cbn [trace printed]. rewrite Et, Ht1, <- app_assoc. reflexivity.
      * apply (quiet_app [_] new); [apply Hc | exact Hq].
      * change (Called c (inr operation) :: new)
          with ([Called c (inr operation)] ++ new)%list.
        rewrite raised_count_app, Hr. simpl. lia.
    + contradiction.
    + inversion H; subst.
      exists (Called c (inr operation) :: new). split; [| split].
      * rewrite Et, Ht1, <- app_assoc. reflexivity.
      * apply (quiet_app [_] new); [apply Hc | exact Hq].
      * exact I.
  - rewrite bind_print in H. inversion H; subst.
    exists [Called c (inl e)]. split; [| split].
    + reflexivity.
    + apply Hc.
    + unfold raised_count. simpl. lia.
Qed.

End Tallies.

Lemma after_found (path : string) (attempt rest : list event) :
  quiet attempt ->
  probed_paths (Probed path true :: attempt ++ rest) = path :: probed_paths rest
  /\ import_ids (Probed path true :: attempt ++ rest) = import_ids rest
  /\ asked (Probed path true :: attempt ++ rest) = asked rest
  /\ listing_parents (Probed path true :: attempt ++ rest) = listing_parents rest
  /\ found_count (Probed path true :: attempt ++ rest) = S (found_count rest)
  /\ missing_count (Probed path true :: attempt ++ rest) = missing_count rest
  /\ raised_count (Probed path true :: attempt ++ rest)
     = (raised_count attempt + raised_count rest)%nat.
Proof.
  intros [H1 [H2 [H3 [H4 [H5 H6]]]]].
  change (Probed path true :: attempt ++ rest)
    with ([Probed path true] ++ attempt ++ rest)%list.
  rewrite !probed_paths_app, !import_ids_app, !asked_app, !listing_parents_app,
    !found_count_app, !missing_count_app, !raised_count_app.
  rewrite H1, H2, H3, H4, H5, H6. repeat split.
Qed.

Lemma after_missing (path : string) (rest : list event) :
  probed_paths (Probed path false :: rest) = path :: probed_paths rest
  /\ import_ids (Probed path false :: rest) = import_ids rest
  /\ asked (Probed path false :: rest) = asked rest
  /\ listing_parents (Probed path false :: rest) = listing_parents rest
  /\ found_count (Probed path false :: rest) = found_count rest
  /\ missing_count (Probed path false :: rest) = S (missing_count rest)
  /\ raised_count (Probed path false :: rest) = raised_count rest.
Proof. repeat split. Qed.

Lemma upload_call_quiet (file store : string) (config : UploadConfig)
    (reply : exn + Operation) :
  quiet [Called (UploadToFileSearchStore file store config) reply].
Proof. repeat split. Qed.

Section UploadLoops.
Context {C : Client}.

(** The step of both upload loops on a file that exists, once the attempt
    and the rest of the loop are known. *)
Lemma upload_tally_found (file_path : string) (rest : list string)
    (uploaded k : nat) (attempt new : list event) (res : result nat) :
  quiet attempt ->
  (k + raised_count attempt = S uploaded)%nat ->
  upload_tally rest k res new ->
  upload_tally (file_path :: rest) uploaded res
    (Probed file_path true :: attempt ++ new).
Proof.
  intros Hq Hk [H1 [H2 [H3 Hres]]].
  destruct (after_found file_path attempt new Hq)
    as [P1 [P2 [P3 [P4 [P5 [P6 P7]]]]]].
  unfold upload_tally. rewrite P1, P2, P3, P4, P5, P6, P7.
  repeat split; try assumption.
  destruct res as [k' | e | code | ]; try contradiction.
  - destruct Hres as [Hp [Hc Hf]]. rewrite Hp. simpl. repeat split; lia.
  - destruct Hres as [more Hm]. exists more. rewrite Hm. reflexivity.
Qed.

Lemma upload_tally_missing (file_path : string) (rest : list string)
    (uploaded : nat) (new : list event) (res : result nat) :
  upload_tally rest uploaded res new ->
  upload_tally (file_path :: rest) uploaded res (Probed file_path false :: new).
Proof.
  intros [H1 [H2 [H3 Hres]]].
  destruct (after_missing file_path new) as [P1 [P2 [P3 [P4 [P5 [P6 P7]]]]]].
  unfold upload_tally. rewrite P1, P2, P3, P4, P5, P6, P7.
  repeat split; try assumption.
  destruct res as [k' | e | code | ]; try contradiction.
  - destruct Hres as [Hp [Hc Hf]]. rewrite Hp. simpl. repeat split; lia.
  - destruct Hres as [more Hm]. exists more. rewrite Hm. reflexivity.
Qed.

Lemma upload_tally_spin (file_path : string) (rest : list string)
    (uploaded : nat) (attempt : list event) :
  quiet attempt ->
  upload_tally (file_path :: rest) uploaded Spin (Probed file_path true :: attempt).
Proof.
  intro Hq. rewrite <- (app_nil_r attempt).
  destruct (after_found file_path attempt [] Hq)
    as [P1 [P2 [P3 [P4 [P5 [P6 P7]]]]]].
  unfold upload_tally. rewrite P1, P2, P3, P4.
  repeat split. exists rest. reflexivity.
Qed.

Lemma upload_each_tally (fuel : nat) (store : string) (file_paths : list string) :
  forall uploaded s res s',
    ManageFilestore.upload_each fuel store file_paths uploaded s = (res, s') ->
    exists new,
      trace s' = (trace s ++ new)%list
      /\ upload_tally file_paths uploaded res new.
Proof.
  induction file_paths as [| file_path rest IH]; intros uploaded s res s' H;
    simpl in H.
  - inversion H; subst. exists []. rewrite app_nil_r. split; [reflexivity |].
    unfold upload_tally, missing_count, raised_count, found_count. simpl.
    repeat split; lia.
  - rewrite bind_probe in H.
    destruct (path_exists (world s) file_path); cbn [negb] in H.
    + unfold bind at 1 in H.
      match type of H with
      | context [try_except ?m ?h ?st] =>
          destruct (try_except m h st) as [ra sa] eqn:Ea
      end.
      destruct (upload_attempt_tally _ fuel uploaded _ _ None _ _ _ _
                  (upload_call_quiet _ _ _) Ea) as [attempt [Eta [Hq Hra]]].
      cbn [trace logged] in Eta.
      destruct ra as [k | e | code | ]; try contradiction.
      * apply IH in H. destruct H as [new [Et Hn]].
        exists (Probed file_path true :: attempt ++ new). split.
        -- rewrite Et, Eta, <- !app_assoc. reflexivity.
        -- apply (upload_tally_found _ _ _ k); assumption.
      * inversion H; subst.
        exists (Probed file_path true :: attempt). split.
        -- rewrite Eta, <- !app_assoc. reflexivity.
        -- apply upload_tally_spin. exact Hq.
    + rewrite bind_print in H. apply IH in H. destruct H as [new [Et Hn]].
      exists (Probed file_path false :: new). split.
      * rewrite Et. cbn [trace printed logged]. rewrite <- !app_assoc. reflexivity.
      * apply upload_tally_missing. exact Hn.
Qed.

Lemma upload_each_with_metadata_tally (fuel : nat) (store : string)
    (file_paths : list string) (custom_metadata : option string) :
  forall uploaded s res s',
    ManageFilestore.upload_each_with_metadata fuel store file_paths
      custom_metadata uploaded s = (res, s') ->
    exists new,
      trace s' = (trace s ++ new)%list
      /\ upload_tally file_paths uploaded res new.
Proof.
  induction file_paths as [| file_path rest IH]; intros uploaded s res s' H;
    simpl in H.
  - inversion H; subst. exists []. rewrite app_nil_r. split; [reflexivity |].
    unfold upload_tally, missing_count, raised_count, found_count. simpl.
    repeat split; lia.
  - rewrite bind_probe in H.
    destruct (path_exists (world s) file_path); cbn [negb] in H.
    + unfold bind at 1 in H.
      match type of H with
      | context [try_except ?m ?h ?st] =>
          destruct (try_except m h st) as [ra sa] eqn:Ea
      end.
      destruct (upload_attempt_tally _ fuel uploaded _ _
                  (Some "   ⏳ Processing...") _ _ _ _
                  (upload_call_quiet _ _ _) Ea) as [attempt [Eta [Hq Hra]]].
      cbn [trace logged] in Eta.
      destruct ra as [k | e | code | ]; try contradiction.
      * apply IH in H. destruct H as [new [Et Hn]].
        exists (Probed file_path true :: attempt ++ new). split.
        -- rewrite Et, Eta, <- !app_assoc. reflexivity.
        -- apply (upload_tally_found _ _ _ k); assumption.
      * inversion H; subst.
        exists (Probed file_path true :: attempt). split.
        -- rewrite Eta, <- !app_assoc. reflexivity.
        -- apply upload_tally_spin. exact Hq.
    + rewrite bind_print in H. apply IH in H. destruct H as [new [Et Hn]].
      exists (Probed file_path false :: new). split.
      * rewrite Et. cbn [trace printed logged]. rewrite <- !app_assoc. reflexivity.
      * apply upload_tally_missing. exact Hn.
Qed.

End UploadLoops.

Section UploadFiles.
Context {C : Client}.

Lemma upload_files_tally (fuel : nat) (store : string) (file_paths : list string)
    (s : state) (res : result unit) (s' : state) :
  ManageFilestore.upload_files fuel store file_paths s = (res, s') ->
  exists new counted,
    trace s' = (trace s ++ new)%list
    /\ upload_tally file_paths 0 counted new
    /\ match counted with
       | Ret k =>
           res = Ret tt
           /\ last (out s') "" =
                nl ++ "✅ Uploaded " ++ str_of_nat k ++ "/"
                ++ str_of_nat (List.length file_paths) ++ " files"
       | _ => res = Spin
       end.
Proof.
  unfold ManageFilestore.upload_files. rewrite bind_print. unfold bind at 1.
  destruct (ManageFilestore.upload_each fuel store file_paths 0
              (printed s ("📤 Uploading files to store: " ++ store ++ nl)))
    as [counted su] eqn:Eu.
  destruct (upload_each_tally _ _ _ _ _ _ _ Eu) as [new [Et Hn]].
  intro H. exists new, counted. split; [| split; [exact Hn |]].
  - destruct counted; inversion H; subst; exact Et.
  - destruct counted as [k | e | code | ]; inversion H; subst; try reflexivity.
    + split; [reflexivity |]. cbn [out printed]. apply last_last.
    + destruct Hn as [_ [_ [_ []]]].
    + destruct Hn as [_ [_ [_ []]]].
Qed.

Lemma upload_with_metadata_tally (fuel : nat) (store : string)
    (file_paths : list string) (custom_metadata : option string)
    (s : state) (res : result unit) (s' : state) :
  ManageFilestore.upload_with_metadata fuel store file_paths custom_metadata s
    = (res, s') ->
  exists new counted,
    trace s' = (trace s ++ new)%list
    /\ upload_tally file_paths 0 counted new
    /\ match counted with
       | Ret k =>
           res = Ret tt
           /\ last (out s') "" =
                nl ++ "✅ Uploaded " ++ str_of_nat k ++ "/"
                ++ str_of_nat (List.length file_paths) ++ " files"
       | _ => res = Spin
       end.
Proof.
  unfold ManageFilestore.upload_with_metadata. rewrite bind_print.
  set (s0 := printed s ("📤 Uploading files to store: " ++ store ++ nl)).
  assert (Hnote : exists s1,
             forall k : unit -> M unit,
               bind (match ManageFilestore.truthy custom_metadata with
                     | Some metadata => print ("Custom metadata: " ++ metadata ++ nl)
                     | None => ret tt
                     end) k s0 = k tt s1
               /\ trace s1 = trace s).
  { destruct (ManageFilestore.truthy custom_metadata) as [metadata |].
    - exists (printed s0 ("Custom metadata: " ++ metadata ++ nl)).
      intro k. split; reflexivity.
    - exists s0. intro k. split; reflexivity. }
  destruct Hnote as [s1 Hnote]. destruct (Hnote (fun _ => ret tt)) as [_ Ht1].
  rewrite (proj1 (Hnote _)). unfold bind at 1.
  destruct (ManageFilestore.upload_each_with_metadata fuel store file_paths
              custom_metadata 0 s1) as [counted su] eqn:Eu.
  destruct (upload_each_with_metadata_tally _ _ _ _ _ _ _ _ Eu) as [new [Et Hn]].
  rewrite Ht1 in Et.
  intro H. exists new, counted. split; [| split; [exact Hn |]].
  - destruct counted; inversion H; subst; exact Et.
  - destruct counted as [k | e | code | ]; inversion H; subst; try reflexivity.
    + split; [reflexivity |]. cbn [out printed]. apply last_last.
    + destruct Hn as [_ [_ [_ []]]].
    + destruct Hn as [_ [_ [_ []]]].
Qed.

End UploadFiles.

(** X2.  [upload_files] and [upload_with_metadata] never raise and never
    exit: whatever the remote does, each run either returns normally,
    having probed every path of the batch once and in order, or is still
    waiting for an operation, having probed the paths up to that file. *)
Theorem uploads_attempt_every_file {C : Client} (fuel : nat) (store : string)
    (file_paths : list string) (custom_metadata : option string) (s : state) :
  (exists new,
     trace (snd (ManageFilestore.upload_files fuel store file_paths s))
       = (trace s ++ new)%list
     /\ match fst (ManageFilestore.upload_files fuel store file_paths s) with
        | Ret _ => probed_paths new = file_paths
        | Spin => exists rest, file_paths = (probed_paths new ++ rest)%list
        | _ => False
        end)
  /\ (exists new,
        trace (snd (ManageFilestore.upload_with_metadata fuel store file_paths
                      custom_metadata s))
          = (trace s ++ new)%list
        /\ match fst (ManageFilestore.upload_with_metadata fuel store file_paths
                        custom_metadata s) with
           | Ret _ => probed_paths new = file_paths
           | Spin => exists rest, file_paths = (probed_paths new ++ rest)%list
           | _ => False
           end).
Proof.
  split.
  - destruct (ManageFilestore.upload_files fuel store file_paths s)
      as [res s'] eqn:E.
    destruct (upload_files_tally _ _ _ _ _ _ E)
      as [new [counted [Et [[_ [_ [_ Hn]]] Hres]]]].
    exists new. split; [exact Et |]. cbn [fst].
    destruct counted as [k | e | code | ]; try contradiction.
    + destruct Hres as [Hr _]. rewrite Hr. apply Hn.
    + rewrite Hres. exact Hn.
  - destruct (ManageFilestore.upload_with_metadata fuel store file_paths
                custom_metadata s) as [res s'] eqn:E.
    destruct (upload_with_metadata_tally _ _ _ _ _ _ _ E)
      as [new [counted [Et [[_ [_ [_ Hn]]] Hres]]]].
    exists new. split; [exact Et |]. cbn [fst].
    destruct counted as [k | e | code | ]; try contradiction.
    + destruct Hres as [Hr _]. rewrite Hr. apply Hn.
    + rewrite Hres. exact Hn.
Qed.

(** X3.  When [upload_files] or [upload_with_metadata] returns, its last
    line reads "Uploaded k/n files", where n is the size of the batch and
    k is the number of files found minus the number of calls that raised:
    every file of the batch is either counted, or was missing, or had its
    upload or one of its fetches raise - and never two of these. *)
Theorem uploads_account_for_every_file {C : Client} (fuel : nat) (store : string)
    (file_paths : list string) (custom_metadata : option string) (s : state) :
  (exists new,
     trace (snd (ManageFilestore.upload_files fuel store file_paths s))
       = (trace s ++ new)%list
     /\ match fst (ManageFilestore.upload_files fuel store file_paths s) with
        | Ret _ =>
            exists k,
              last (out (snd (ManageFilestore.upload_files fuel store
                                file_paths s))) "" =
                nl ++ "✅ Uploaded " ++ str_of_nat k ++ "/"
                ++ str_of_nat (List.length file_paths) ++ " files"
              /\ (k + raised_count new = found_count new)%nat
              /\ (k + missing_count new + raised_count new
                  = List.length file_paths)%nat
        | _ => True
        end)
  /\ (exists new,
        trace (snd (ManageFilestore.upload_with_metadata fuel store file_paths
                      custom_metadata s))
          = (trace s ++ new)%list
        /\ match fst (ManageFilestore.upload_with_metadata fuel store file_paths
                        custom_metadata s) with
           | Ret _ =>
               exists k,
                 last (out (snd (ManageFilestore.upload_with_metadata fuel store
                                   file_paths custom_metadata s))) "" =
                   nl ++ "✅ Uploaded " ++ str_of_nat k ++ "/"
                   ++ str_of_nat (List.length file_paths) ++ " files"
                 /\ (k + raised_count new = found_count new)%nat
                 /\ (k + missing_count new + raised_count new
                     = List.length file_paths)%nat
           | _ => True
           end).
Proof.
  split.
  - destruct (ManageFilestore.upload_files fuel store file_paths s)
      as [res s'] eqn:E.
    destruct (upload_files_tally _ _ _ _ _ _ E)
      as [new [counted [Et [[_ [_ [_ Hn]]] Hres]]]].
    exists new. split; [exact Et |]. cbn [fst snd].
    destruct counted as [k | e | code | ]; try contradiction.
    + destruct Hres as [Hr Hl]. rewrite Hr. exists k.
      destruct Hn as [_ [Hc Hf]]. repeat split; [exact Hl | lia | lia].
    + rewrite Hres. exact I.
  - destruct (ManageFilestore.upload_with_metadata fuel store file_paths
                custom_metadata s) as [res s'] eqn:E.
    destruct (upload_with_metadata_tally _ _ _ _ _ _ _ E)
      as [new [counted [Et [[_ [_ [_ Hn]]] Hres]]]].
    exists new. split; [exact Et |]. cbn [fst snd].
    destruct counted as [k | e | code | ]; try contradiction.
    + destruct Hres as [Hr Hl]. rewrite Hr. exists k.
      destruct Hn as [_ [Hc Hf]]. repeat split; [exact Hl | lia | lia].
    + rewrite Hres. exact I.
Qed.

Section ImportLoop.
Context {C : Client}.

Lemma import_call_events (store file_id : string) (custom_metadata : option string)
    (reply : exn + Operation) (rest : list event) :
  quiet rest ->
  probed_paths (Called (ImportFile store file_id custom_metadata) reply :: rest) = []
  /\ asked (Called (ImportFile store file_id custom_metadata) reply :: rest) = []
  /\ listing_parents
       (Called (ImportFile store file_id custom_metadata) reply :: rest) = []
  /\ import_ids (Called (ImportFile store file_id custom_metadata) reply :: rest)
     = [file_id].
Proof.
  intros [H1 [H2 [H3 [H4 _]]]].
  change (Called (ImportFile store file_id custom_metadata) reply :: rest)
    with ([Called (ImportFile store file_id custom_metadata) reply] ++ rest)%list.
  rewrite probed_paths_app, asked_app, listing_parents_app, import_ids_app.
  rewrite H1, H2, H3, H4. repeat split.
Qed.

(** One attempt of the import loop. *)
Lemma import_attempt_tally (fuel imported : nat) (store file_id : string)
    (custom_metadata : option string) (s : state) (res : result nat) (s' : state) :
  try_except
    (print ("   Importing " ++ file_id ++ "...") ;;
     operation <- perform (ImportFile store file_id custom_metadata) ;;
     operation <- wait_until_done fuel operation ;;
     match error operation with
     | Some err =>
         print ("   ❌ Failed: " ++ err) ;;
         ret imported
     | None =>
         print "   ✅ Imported successfully" ;;
         ret (S imported)
     end)
    (fun e =>
       print ("   ❌ Error importing " ++ file_id ++ ": " ++ e) ;;
       ret imported) s = (res, s') ->
  exists new,
    trace s' = (trace s ++ new)%list
    /\ probed_paths new = [] /\ asked new = [] /\ listing_parents new = []
    /\ import_ids new = [file_id]
    /\ match res with
       | Ret k => (imported <= k)%nat /\ (k + raised_count new <= S imported)%nat
       | Spin => True
       | _ => False
       end.
Proof.
  intro H. unfold try_except in H. rewrite bind_print in H.
  unfold bind at 1 in H.
  set (c := ImportFile store file_id custom_metadata) in *.
  destruct (perform_cases c (printed s ("   Importing " ++ file_id ++ "...")))
    as [[w [operation [_ Ep]]] | [w [e [_ Ep]]]]; rewrite Ep in H.
  - unfold bind at 1 in H.
    match type of H with
    | context [wait_until_done fuel operation ?st] =>
        destruct (wait_until_done fuel operation st)
          as [[last | e | code | ] s2] eqn:Ew;
        destruct (wait_tally fuel operation st _ _ Ew) as [new [Et [Hq Hr]]]
    end; cbn [trace logged printed] in Et.
    + destruct (import_call_events store file_id custom_metadata (inr operation)
                  new Hq) as [P1 [P2 [P3 P4]]].
      exists (Called c (inr operation) :: new).
      assert (Hraised : raised_count (Called c (inr operation) :: new) = 0%nat).
      { change (Called c (inr operation) :: new)
          with ([Called c (inr operation)] ++ new)%list.
        rewrite raised_count_app, Hr. reflexivity. }
      destruct (error last); rewrite bind_print in H; inversion H; subst;
        cbn [trace printed]; rewrite Et, <- app_assoc, Hraised;
        repeat split; try assumption; try reflexivity; lia.
    + destruct (import_call_events store file_id custom_metadata (inr operation)
                  new Hq) as [P1 [P2 [P3 P4]]].
      rewrite bind_print in H. inversion H; subst.
      exists (Called c (inr operation) :: new).
      cbn [trace printed]. rewrite Et, <- app_assoc.
      repeat split; try assumption; try reflexivity; try lia.
      change (Called c (inr operation) :: new)
        with ([Called c (inr operation)] ++ new)%list.
      rewrite raised_count_app, Hr. unfold raised_count. simpl. lia.
    + contradiction.
    + destruct (import_call_events store file_id custom_metadata (inr operation)
                  new Hq) as [P1 [P2 [P3 P4]]].
      inversion H; subst.
      exists (Called c (inr operation) :: new).
      rewrite Et, <- app_assoc. repeat split; try assumption; reflexivity.
  - rewrite bind_print in H. inversion H; subst.
    exists [Called c (inl e)]. cbn [trace printed logged].
    repeat split; try reflexivity; try lia.
    unfold raised_count. simpl. lia.
Qed.

Lemma import_each_tally (fuel : nat) (store : string) (file_ids : list string)
    (custom_metadata : option string) :
  forall imported s res s',
    ManageFilestore.import_each fuel store file_ids custom_metadata imported s
      = (res, s') ->
    exists new,
      trace s' = (trace s ++ new)%list
      /\ import_tally file_ids imported res new.
Proof.
  induction file_ids as [| file_id rest IH]; intros imported s res s' H;
    simpl in H.
  - inversion H; subst. exists []. rewrite app_nil_r. split; [reflexivity |].
    unfold import_tally, raised_count. simpl. repeat split; lia.
  - unfold bind at 1 in H.
    match type of H with
    | context [try_except ?m ?h ?st] =>
        destruct (try_except m h st) as [ra sa] eqn:Ea
    end.
    destruct (import_attempt_tally _ _ _ _ _ _ _ _ Ea)
      as [attempt [Eta [A1 [A2 [A3 [A4 Hra]]]]]].
    destruct ra as [k | e | code | ]; try contradiction.
    + apply IH in H. destruct H as [new [Et [N1 [N2 [N3 Hn]]]]].
      exists (attempt ++ new)%list. split.
      * rewrite Et, Eta, <- app_assoc. reflexivity.
      * unfold import_tally.
        rewrite probed_paths_app, asked_app, listing_parents_app,
          import_ids_app, raised_count_app, A1, A2, A3, A4, N1, N2, N3.
        repeat split.
        destruct res as [k' | e | code | ]; try contradiction.
        -- destruct Hn as [Hi [Hle Hc]]. rewrite Hi. simpl.
           repeat split; lia.
        -- destruct Hn as [more Hm]. exists more. rewrite Hm. reflexivity.
    + inversion H; subst. exists attempt. split; [exact Eta |].
      unfold import_tally. rewrite A1, A2, A3, A4. repeat split.
      exists rest. reflexivity.
Qed.

Lemma import_files_tally (fuel : nat) (store : string) (file_ids : list string)
    (custom_metadata : option string) (s : state) (res : result unit)
    (s' : state) :
  ManageFilestore.import_files fuel store file_ids custom_metadata s = (res, s') ->
  exists new counted,
    trace s' = (trace s ++ new)%list
    /\ import_tally file_ids 0 counted new
    /\ match counted with
       | Ret k =>
           res = Ret tt
           /\ last (out s') "" =
                nl ++ "✅ Imported " ++ str_of_nat k ++ "/"
                ++ str_of_nat (List.length file_ids) ++ " files"
       | _ => res = Spin
       end.
Proof.
  unfold ManageFilestore.import_files. rewrite bind_print. unfold bind at 1.
  destruct (ManageFilestore.import_each fuel store file_ids custom_metadata 0
              (printed s ("📥 Importing files to store: " ++ store ++ nl)))
    as [counted su] eqn:Eu.
  destruct (import_each_tally _ _ _ _ _ _ _ _ Eu) as [new [Et Hn]].
  intro H. exists new, counted. split; [| split; [exact Hn |]].
  - destruct counted; inversion H; subst; exact Et.
  - destruct counted as [k | e | code | ]; inversion H; subst; try reflexivity.
    + split; [reflexivity |]. cbn [out printed]. apply last_last.
    + destruct Hn as [_ [_ [_ []]]].
    + destruct Hn as [_ [_ [_ []]]].
Qed.

End ImportLoop.

(** X4.  [import_files] never raises and never exits.  A run that returns
    has asked the remote to import every file identifier of the batch, once
    and in the order given, whatever failed on the way; a run that is still
    waiting has asked for the identifiers up to that file.  The number it
    reports as imported is at most the size of the batch less the calls
    that raised. *)
Theorem import_attempts_every_file {C : Client} (fuel : nat) (store : string)
    (file_ids : list string) (custom_metadata : option string) (s : state) :
  exists new,
    trace (snd (ManageFilestore.import_files fuel store file_ids
                  custom_metadata s))
      = (trace s ++ new)%list
    /\ match fst (ManageFilestore.import_files fuel store file_ids
                    custom_metadata s) with
       | Ret _ =>
           import_ids new = file_ids
           /\ exists k,
                last (out (snd (ManageFilestore.import_files fuel store file_ids
                                  custom_metadata s))) "" =
                  nl ++ "✅ Imported " ++ str_of_nat k ++ "/"
                  ++ str_of_nat (List.length file_ids) ++ " files"
                /\ (k + raised_count new <= List.length file_ids)%nat
       | Spin => exists rest, file_ids = (import_ids new ++ rest)%list
       | _ => False
       end.
Proof.
  destruct (ManageFilestore.import_files fuel store file_ids custom_metadata s)
    as [res s'] eqn:E.
  destruct (import_files_tally _ _ _ _ _ _ _ E)
    as [new [counted [Et [[_ [_ [_ Hn]]] Hres]]]].
  exists new. split; [exact Et |]. cbn [fst snd].
  destruct counted as [k | e | code | ]; try contradiction.
  - destruct Hres as [Hr Hl]. rewrite Hr. destruct Hn as [Hi [_ Hc]].
    split; [exact Hi |]. exists k. split; [exact Hl | lia].
  - rewrite Hres. exact Hn.
Qed.

(** ** Listing stores *)

Section StoreListing.
Context {C : Client}.




End StoreListing.


(** ** Searching and querying *)

Section Searching.
Context {C : Client}.

Lemma print_matches_run (chunks : list GroundingChunk) :
  forall i s,
    ManageFilestore.print_matches i chunks s =
    (Ret tt,
     {| world := world s;
        trace := trace s;
        out := out s
               ++ flat_map (fun p => match_lines (fst p) (snd p))
                    (numbered i chunks) |}).
Proof.
  induction chunks as [| chunk rest IH]; intros i s.
  - simpl. rewrite app_nil_r. destruct s. reflexivity.
  - cbn [ManageFilestore.print_matches]. unfold bind at 1.
    assert (Hchunk :
              match file_search chunk with
              | Some fs =>
                  print (str_of_nat i ++ ". " ++ doc_display_name (document fs)) ;;
                  match page_range fs with
                  | Some pages =>
                      print ("   Pages: " ++ str_of_Z (start_page_index pages)
                             ++ "-" ++ str_of_Z (end_page_index pages))
                  | None => ret tt
                  end ;;
                  print ""
              | None => ret tt
              end s
              = (Ret tt,
                 {| world := world s; trace := trace s;
                    out := out s ++ match_lines i chunk |})).
    { unfold match_lines.
      destruct (file_search chunk) as [fs |];
        [destruct (page_range fs) as [pages |] |];
        unfold bind, print, printed, ret; cbn [world trace out];
        rewrite <- ?app_assoc, ?app_nil_r; try reflexivity.
      destruct s. reflexivity. }
    rewrite Hchunk, IH. cbn [world trace out].
    unfold numbered. cbn [List.length seq combine flat_map fst snd].
    rewrite <- app_assoc. reflexivity.
Qed.

(** The whole run of a search that the remote answers. *)
Lemma vector_search_run (store query : string) (top_k : Z) (s : state)
    (w : World) (response : Response) (candidate : Candidate)
    (others : list Candidate) :
  remote Response (world s) (GenerateContent "gemini-2.5-flash" query [store])
    = (w, inr response) ->
  candidates response = candidate :: others ->
  ManageFilestore.vector_search store query top_k s =
  (Ret tt,
   {| world := w;
      trace := trace s ++ [Called (GenerateContent "gemini-2.5-flash" query [store])
                             (inr response)];
      out :=
        out s
        ++ [("🔍 Searching store: " ++ store ++ nl)%string;
            ("Query: " ++ query ++ nl)%string;
            "ℹ️  Direct vector search API coming soon.";
            ("   Using query with generation for now..." ++ nl)%string]
        ++ match grounding_metadata candidate with
           | None => []
           | Some metadata =>
               ("📄 Matching Documents:" ++ nl)%string
               :: flat_map (fun p => match_lines (fst p) (snd p))
                    (numbered 1 (grounding_chunks metadata))
           end |}).
Proof.
  intros Hreply Hcandidates. unfold ManageFilestore.vector_search.
  rewrite !bind_print. unfold try_except. rewrite !bind_print.
  unfold bind at 1, perform. cbn [world printed]. rewrite Hreply, Hcandidates.
  destruct (grounding_metadata candidate) as [metadata |].
  - rewrite bind_print, print_matches_run.
    unfold logged, printed. cbn [world trace out].
    rewrite <- ?app_assoc. reflexivity.
  - unfold ret, logged, printed. cbn [world trace out].
    rewrite <- ?app_assoc, ?app_nil_r. reflexivity.
Qed.

(** Neither function lets an exception out. *)
Lemma query_store_total (store question model : string) (s : state) :
  exists reply s',
    ManageFilestore.query_store store question model s = (Ret tt, s')
    /\ trace s' = (trace s ++ [Called (GenerateContent model question [store])
                                reply])%list.
Proof.
  unfold ManageFilestore.query_store. rewrite !bind_print.
  unfold try_except, bind at 1.
  match goal with
  | |- context [perform ?c ?st] =>
      destruct (perform_cases c st)
        as [[w [response [_ Ep]]] | [w [e [_ Ep]]]]; rewrite Ep
  end.
  - exists (inr response). rewrite bind_print.
    destruct (candidates response) as [| candidate others].
    + eexists. split; reflexivity.
    + destruct (grounding_metadata candidate) as [metadata |].
      * rewrite bind_print, print_sources_prints_citations.
        eexists. split; reflexivity.
      * eexists. split; reflexivity.
  - exists (inl e). eexists. split; reflexivity.
Qed.

Lemma vector_search_total (store query : string) (top_k : Z) (s : state) :
  exists reply s',
    ManageFilestore.vector_search store query top_k s = (Ret tt, s')
    /\ trace s' = (trace s ++ [Called (GenerateContent "gemini-2.5-flash" query
                                        [store]) reply])%list.
Proof.
  unfold ManageFilestore.vector_search. rewrite !bind_print.
  unfold try_except. rewrite !bind_print. unfold bind at 1.
  match goal with
  | |- context [perform ?c ?st] =>
      destruct (perform_cases c st)
        as [[w [response [_ Ep]]] | [w [e [_ Ep]]]]; rewrite Ep
  end.
  - exists (inr response).
    destruct (candidates response) as [| candidate others].
    + eexists. split; reflexivity.
    + destruct (grounding_metadata candidate) as [metadata |].
      * rewrite bind_print, print_matches_run.
        eexists. split; reflexivity.
      * eexists. split; reflexivity.
  - exists (inl e). eexists. split; reflexivity.
Qed.

End Searching.

(** X6.  [vector_search] always queries the model [gemini-2.5-flash] and
    does not use [top_k].  Under "Matching Documents" it shows the
    grounding chunks that carry a document attribution, each numbered with
    its position among all the chunks of the response: a chunk without an
    attribution is not shown but still takes a number.  When the response
    has no grounding metadata nothing is shown after the notice - not even
    a line saying so. *)
Theorem vector_search_numbers_by_position {C : Client} (store query : string)
    (top_k : Z) (s : state) (w : World) (response : Response)
    (candidate : Candidate) (others : list Candidate) :
  remote Response (world s) (GenerateContent "gemini-2.5-flash" query [store])
    = (w, inr response) ->
  candidates response = candidate :: others ->
  fst (ManageFilestore.vector_search store query top_k s) = Ret tt
  /\ trace (snd (ManageFilestore.vector_search store query top_k s))
     = (trace s ++ [Called (GenerateContent "gemini-2.5-flash" query [store])
                      (inr response)])%list
  /\ out (snd (ManageFilestore.vector_search store query top_k s)) =
       (out s
        ++ [("🔍 Searching store: " ++ store ++ nl)%string;
            ("Query: " ++ query ++ nl)%string;
            "ℹ️  Direct vector search API coming soon."%string;
            ("   Using query with generation for now..." ++ nl)%string]
        ++ match grounding_metadata candidate with
           | None => []
           | Some metadata =>
               ("📄 Matching Documents:" ++ nl)%string
               :: flat_map (fun p => match_lines (fst p) (snd p))
                    (numbered 1 (grounding_chunks metadata))
           end)%list.
Proof.
  intros Hreply Hcandidates.
  rewrite (vector_search_run store query top_k s w response candidate others
             Hreply Hcandidates).
  repeat split.
Qed.

Lemma vector_search_numbers_by_position_witness :
  let r := run one_sample
             (fun _ => ManageFilestore.vector_search "fileSearchStores/kb"
                         "handbook" 5) in
  fst r = Ret tt
  /\ trace (snd r)
     = [Called (GenerateContent "gemini-2.5-flash" "handbook" ["fileSearchStores/kb"])
          (inr grounded_response)]
  /\ out (snd r) =
       ["🔍 Searching store: fileSearchStores/kb" ++ nl;
        "Query: handbook" ++ nl;
        "ℹ️  Direct vector search API coming soon.";
        "   Using query with generation for now..." ++ nl;
        "📄 Matching Documents:" ++ nl;
        "2. handbook.pdf";
        "   Pages: 2-4";
        ""].
Proof.
  apply (@vector_search_numbers_by_position (scripted one_sample)
           "fileSearchStores/kb" "handbook" 5
           (@start (scripted one_sample) 0%nat) 0%nat grounded_response
           (hd {| grounding_metadata := None |} (candidates grounded_response))
           []); reflexivity.
Defined.

(** X7.  [query_store] and [vector_search] never raise and never exit.
    Each issues exactly one remote call - the generation request - and
    returns normally whether the request is refused, the response has no
    candidates, or the answer arrives. *)
Theorem queries_never_raise {C : Client} (store question model : string)
    (top_k : Z) (s : state) :
  (fst (ManageFilestore.query_store store question model s) = Ret tt
   /\ exists reply,
        trace (snd (ManageFilestore.query_store store question model s))
        = (trace s ++ [Called (GenerateContent model question [store]) reply])%list)
  /\ (fst (ManageFilestore.vector_search store question top_k s) = Ret tt
      /\ exists reply,
           trace (snd (ManageFilestore.vector_search store question top_k s))
           = (trace s ++ [Called (GenerateContent "gemini-2.5-flash" question
                                    [store]) reply])%list).
Proof.
  destruct (query_store_total store question model s) as [r1 [s1 [E1 T1]]].
  destruct (vector_search_total store question top_k s) as [r2 [s2 [E2 T2]]].
  rewrite E1, E2. cbn [fst snd].
  split; (split; [reflexivity | eexists; eassumption]).
Qed.

(** ** Exporting *)

Section Exporting.
Context {C : Client}.
Variable json_dumps : list ManageFilestore.ExportEntry -> string.

Lemma export_each_run (stores : list Store) :
  forall export_data s,
  exists new s',
    ManageFilestore.export_each stores export_data s
      = (Ret (export_data ++ exported stores (listing_replies new))%list, s')
    /\ trace s' = (trace s ++ new)%list
    /\ out s' = out s
    /\ listing_parents new = map store_name stores
    /\ List.length (listing_replies new) = List.length stores.
Proof.
  induction stores as [| store rest IH]; intros export_data s.
  - exists [], s. simpl. unfold exported. simpl. rewrite !app_nil_r.
    repeat split.
  - cbn [ManageFilestore.export_each]. unfold bind at 1, try_except_all, bind at 1.
    destruct (perform_cases (DocumentsList (store_name store)) s)
      as [[w [docs [_ Ep]]] | [w [e [_ Ep]]]]; rewrite Ep; cbn [ret].
    + match goal with
      | |- context [ManageFilestore.export_each rest ?acc ?st] =>
          destruct (IH acc st) as [new [s' [Er [Et [Eo [Hp Hl]]]]]]
      end.
      exists (Called (DocumentsList (store_name store)) (inr docs) :: new), s'.
      change (Called (DocumentsList (store_name store)) (inr docs) :: new)
        with ([Called (DocumentsList (store_name store)) (inr docs)] ++ new)%list.
      rewrite listing_replies_app, listing_parents_app, Hp.
      split; [| split; [| split; [| split]]].
      * rewrite Er. unfold exported. simpl. rewrite <- app_assoc. reflexivity.
      * rewrite Et. cbn [trace logged]. rewrite <- app_assoc. reflexivity.
      * rewrite Eo. reflexivity.
      * reflexivity.
      * simpl. rewrite Hl. reflexivity.
    + match goal with
      | |- context [ManageFilestore.export_each rest ?acc ?st] =>
          destruct (IH acc st) as [new [s' [Er [Et [Eo [Hp Hl]]]]]]
      end.
      exists (Called (DocumentsList (store_name store)) (inl e) :: new), s'.
      change (Called (DocumentsList (store_name store)) (inl e) :: new)
        with ([Called (DocumentsList (store_name store)) (inl e)] ++ new)%list.
      rewrite listing_replies_app, listing_parents_app, Hp.
      split; [| split; [| split; [| split]]].
      * rewrite Er. reflexivity.
      * rewrite Et. cbn [trace logged]. rewrite <- app_assoc. reflexivity.
      * rewrite Eo. reflexivity.
      * reflexivity.
      * simpl. rewrite Hl. reflexivity.
Qed.

Lemma export_all_stores_run (s : state) (w : World) (stores : list Store) :
  remote (list Store) (world s) StoresList = (w, inr stores) ->
  exists new s',
    ManageFilestore.export_all_stores json_dumps s = (Ret tt, s')
    /\ trace s' = (trace s ++ Called StoresList (inr stores) :: new)%list
    /\ listing_parents new = map store_name stores
    /\ List.length (listing_replies new) = List.length stores
    /\ out s' = (out s ++ [json_dumps (exported stores (listing_replies new))])%list.
Proof.
  intro Hstores. unfold ManageFilestore.export_all_stores.
  unfold bind at 1, perform. rewrite Hstores.
  destruct (export_each_run stores []
              (logged s w (Called StoresList (inr stores))))
    as [new [s1 [Er [Et [Eo [Hp Hl]]]]]].
  unfold bind at 1. rewrite Er. cbn [app].
  exists new. eexists. split; [reflexivity |].
  cbn [trace out printed]. rewrite Et, Eo. cbn [trace out logged].
  rewrite <- app_assoc. repeat split; assumption.
Qed.

End Exporting.

(** X8.  The export of all stores always runs to the end once the stores
    are listed: it asks for the documents of every store, in order, and
    prints one JSON document whose entries are, in the order of the
    listing, the stores whose documents could be listed, each with its
    number of documents.  A store whose listing raises is left out of the
    export without any notice. *)
Theorem export_omits_unlisted_stores {C : Client}
    (json_dumps : list ManageFilestore.ExportEntry -> string)
    (s : state) (w : World) (stores : list Store) :
  remote (list Store) (world s) StoresList = (w, inr stores) ->
  exists new,
    fst (ManageFilestore.export_all_stores json_dumps s) = Ret tt
    /\ trace (snd (ManageFilestore.export_all_stores json_dumps s))
       = (trace s ++ Called StoresList (inr stores) :: new)%list
    /\ listing_parents new = map store_name stores
    /\ List.length (listing_replies new) = List.length stores
    /\ out (snd (ManageFilestore.export_all_stores json_dumps s))
       = (out s ++ [json_dumps (exported stores (listing_replies new))])%list.
Proof.
  intro Hstores.
  destruct (export_all_stores_run json_dumps s w stores Hstores)
    as [new [s' [Er [Et [Hp [Hl Eo]]]]]].
  exists new. rewrite Er. cbn [fst snd]. repeat split; assumption.
Qed.

Lemma export_omits_unlisted_stores_witness :
  let r := run (two_stores (inl "500 INTERNAL"))
             (fun _ => ManageFilestore.export_all_stores names_and_counts) in
  exists new,
    fst r = Ret tt
    /\ trace (snd r) = Called StoresList (inr [archive; manuals]) :: new
    /\ listing_parents new = ["fileSearchStores/archive"; "fileSearchStores/manuals"]
    /\ List.length (listing_replies new) = 2%nat
    /\ out (snd r)
       = [names_and_counts (exported [archive; manuals] (listing_replies new))].
Proof.
  apply (@export_omits_unlisted_stores
           (scripted (two_stores (inl "500 INTERNAL"))) names_and_counts
           (@start (scripted (two_stores (inl "500 INTERNAL"))) 0%nat)
           0%nat [archive; manuals]).
  reflexivity.
Defined.

(** In that run the export holds the second store only. *)
Lemma export_of_two_stores_holds_one :
  out (snd (run (two_stores (inl "500 INTERNAL"))
              (fun _ => ManageFilestore.export_all_stores names_and_counts)))
  = ["fileSearchStores/manuals 2"].
Proof. reflexivity. Qed.

(** ** Statistics: the other paths *)




(** X9.  The two forms of [show_stats] differ in what they do with a
    failure.  Without a store name - or with an empty one, which is the
    same call - a failure of the store listing is not caught and leaves the
    function, and an empty listing prints "No stores found." and asks for
    nothing more.  With a store name, a failure of the document listing is
    caught: the run prints the error and returns normally. *)
Theorem show_stats_failure_paths {C : Client} (s : state) (c : ascii)
    (rest : string) :
  ManageFilestore.show_stats (Some "") s = ManageFilestore.show_stats None s
  /\ (let '(w, reply) := remote (list Store) (world s) StoresList in
      match reply with
      | inl e =>
          fst (ManageFilestore.show_stats None s) = Raise e
          /\ trace (snd (ManageFilestore.show_stats None s))
             = (trace s ++ [Called StoresList (inl e)])%list
      | inr [] =>
          fst (ManageFilestore.show_stats None s) = Ret tt
          /\ trace (snd (ManageFilestore.show_stats None s))
             = (trace s ++ [Called StoresList (inr [])])%list
          /\ out (snd (ManageFilestore.show_stats None s))
             = (out s ++ [("📊 Global Storage Statistics" ++ nl)%string;
                          "No stores found."%string])%list
      | inr (_ :: _) => True
      end)
  /\ (let '(w, reply) :=
        remote (list Document) (world s) (DocumentsList (String c rest)) in
      match reply with
      | inl e =>
          fst (ManageFilestore.show_stats (Some (String c rest)) s) = Ret tt
          /\ trace (snd (ManageFilestore.show_stats (Some (String c rest)) s))
             = (trace s ++ [Called (DocumentsList (String c rest)) (inl e)])%list
          /\ out (snd (ManageFilestore.show_stats (Some (String c rest)) s))
             = (out s ++ [("📊 Statistics for store: " ++ String c rest ++ nl)%string;
                          ("❌ Error: " ++ e)%string])%list
      | inr _ => True
      end).
Proof.
  split; [reflexivity | split].
  - cbn [ManageFilestore.show_stats]. rewrite bind_print.
    unfold bind, perform. cbn [world printed].
    destruct (remote (list Store) (world s) StoresList) as [w [e | [| store stores]]].
    + split; reflexivity.
    + cbn [fst snd trace out print printed logged].
      rewrite <- app_assoc. repeat split.
    + exact I.
  - cbn [ManageFilestore.show_stats]. rewrite bind_print.
    unfold try_except, bind, perform. cbn [world printed].
    destruct (remote (list Document) (world s) (DocumentsList (String c rest)))
      as [w [e | docs]].
    + cbn [fst snd trace out print printed logged].
      rewrite <- app_assoc. repeat split.
    + exact I.
Qed.



(** ** Creating a store *)

Section Creating.
Context {C : Client}.

(** What the handler of the demo does with the text of the exception. *)
Lemma create_failed_result (error_str : exn) (s : state) :
  fst (RagZero.create_failed error_str s)
  = (if contains "PERMISSION_DENIED" error_str
        || contains "SERVICE_DISABLED" error_str
        || contains "API_KEY_INVALID" error_str
     then Exit 1%Z else Raise error_str)
  /\ trace (snd (RagZero.create_failed error_str s)) = trace s.
Proof.
  unfold RagZero.create_failed.
  destruct (contains "PERMISSION_DENIED" error_str
            || contains "SERVICE_DISABLED" error_str);
    [| destruct (contains "API_KEY_INVALID" error_str)];
    repeat rewrite bind_print; split; reflexivity.
Qed.

Lemma demo_create_refused_run (fuel : nat) (model_name : string)
    (query : option string) (s : state) (w : World) (e : exn) :
  remote Store (world s) (StoresCreate "Company Knowledge Base - Demo")
    = (w, inl e) ->
  fst (RagZero.main fuel model_name query s)
  = (if contains "PERMISSION_DENIED" e || contains "SERVICE_DISABLED" e
        || contains "API_KEY_INVALID" e
     then Exit 1%Z else Raise e)
  /\ trace (snd (RagZero.main fuel model_name query s))
     = (trace s ++ [Called (StoresCreate "Company Knowledge Base - Demo")
                      (inl e)])%list.
Proof.
  intro Hcreate.
  destruct (RagZero.main fuel model_name query s) as [r s'] eqn:E.
  cbn [fst snd]. unfold RagZero.main in E. rewrite bind_print in E.
  unfold bind at 1, try_except, perform in E. cbn [world printed] in E.
  rewrite Hcreate in E.
  match type of E with
  | context [RagZero.create_failed e ?st] =>
      destruct (create_failed_result e st) as [Hr Ht];
      destruct (RagZero.create_failed e st) as [res s1]
  end.
  cbn [fst snd] in Hr, Ht. subst res.
  destruct (contains "PERMISSION_DENIED" e || contains "SERVICE_DISABLED" e
            || contains "API_KEY_INVALID" e);
    inversion E; subst; split; try reflexivity; exact Ht.
Qed.

End Creating.

(** X11.  When the creation of its store is refused, the demo's [main]
    issues no other remote call.  It ends with [exit(1)] when the text of
    the exception mentions PERMISSION_DENIED, SERVICE_DISABLED or
    API_KEY_INVALID, and lets any other exception out unchanged. *)
Theorem demo_stops_when_store_creation_fails {C : Client} (fuel : nat)
    (model_name : string) (query : option string) (s : state) (w : World)
    (e : exn) :
  remote Store (world s) (StoresCreate "Company Knowledge Base - Demo")
    = (w, inl e) ->
  fst (RagZero.main fuel model_name query s)
  = (if contains "PERMISSION_DENIED" e || contains "SERVICE_DISABLED" e
        || contains "API_KEY_INVALID" e
     then Exit 1%Z else Raise e)
  /\ trace (snd (RagZero.main fuel model_name query s))
     = (trace s ++ [Called (StoresCreate "Company Knowledge Base - Demo")
                      (inl e)])%list.
Proof. apply demo_create_refused_run. Qed.

Lemma demo_stops_when_store_creation_fails_witness :
  (fst (run permission_denied (fun _ => RagZero.main 3 "gemini-2.5-flash" None))
   = Exit 1%Z
   /\ trace (snd (run permission_denied
                    (fun _ => RagZero.main 3 "gemini-2.5-flash" None)))
      = [Called (StoresCreate "Company Knowledge Base - Demo")
           (inl "403 PERMISSION_DENIED on projects/1234")])
  /\ (fst (run nothing (fun _ => RagZero.main 3 "gemini-2.5-flash" None))
      = Raise "UNAVAILABLE"
      /\ trace (snd (run nothing (fun _ => RagZero.main 3 "gemini-2.5-flash" None)))
         = [Called (StoresCreate "Company Knowledge Base - Demo")
              (inl "UNAVAILABLE")]).
Proof.
  split.
  - apply (@demo_stops_when_store_creation_fails (scripted permission_denied) 3
             "gemini-2.5-flash" None (@start (scripted permission_denied) 0%nat)
             0%nat "403 PERMISSION_DENIED on projects/1234").
    reflexivity.
  - apply (@demo_stops_when_store_creation_fails (scripted nothing) 3
             "gemini-2.5-flash" None (@start (scripted nothing) 0%nat)
             0%nat "UNAVAILABLE").
    reflexivity.
Defined.

(** The command that the demo suggests names the project of the message. *)
Lemma demo_suggests_the_project_of_the_message :
  In "   gcloud services enable generativelanguage.googleapis.com --project=1234"
     (out (snd (run permission_denied
                  (fun _ => RagZero.main 3 "gemini-2.5-flash" None)))).
Proof. vm_compute. tauto. Qed.

(** X12.  [create_store] never raises: it issues the one creation call and
    returns normally.  When the store is created it prints the name of the
    store and the upload command that uses it; when the call is refused the
    only line after the heading is the error. *)
Theorem create_store_reports_and_returns {C : Client} (display : string)
    (s : state) :
  let '(w, reply) := remote Store (world s) (StoresCreate display) in
  fst (ManageFilestore.create_store display s) = Ret tt
  /\ trace (snd (ManageFilestore.create_store display s))
     = (trace s ++ [Called (StoresCreate display) reply])%list
  /\ out (snd (ManageFilestore.create_store display s))
     = (out s
        ++ ("📦 Creating new File Search Store..." ++ nl)%string
        :: match reply with
           | inr store =>
               [("✅ Store created successfully!" ++ nl)%string;
                ("Display Name: " ++ store_display_name store)%string;
                ("Store Name: " ++ store_name store)%string;
                ("Created: " ++ store_create_time store)%string;
                (nl ++ "You can now upload files to this store:")%string;
                ("  python3 manage-filestore.py upload " ++ store_name store
                 ++ " file1.pdf file2.pdf")%string]
           | inl e => [("❌ Error creating store: " ++ e)%string]
           end)%list.
Proof.
  unfold ManageFilestore.create_store. rewrite bind_print.
  unfold try_except, bind, perform. cbn [world printed].
  destruct (remote Store (world s) (StoresCreate display)) as [w [e | store]];
    cbn [fst snd trace out print printed logged];
    rewrite <- ?app_assoc; repeat split.
Qed.

(** ** The questions of the demo *)

Section DemoQuestions.
Context {C : Client}.

Lemma perform_ret_inv {A} (c : call A) (s s' : state) (a : A) :
  perform c s = (Ret a, s') ->
  exists w, s' = logged s w (Called c (inr a)).
Proof.
  destruct (perform_cases c s) as [[w [a' [_ Ep]]] | [w [e [_ Ep]]]];
    rewrite Ep; intro H; inversion H; subst.
  exists w. reflexivity.
Qed.

(** The sample loop asks no question and counts the files it found. *)
Lemma upload_samples_tally (fuel : nat) (store : string) (files : list string) :
  forall uploaded_count s k s',
    RagZero.upload_samples fuel store files uploaded_count s = (Ret k, s') ->
    exists new,
      trace s' = (trace s ++ new)%list
      /\ asked new = []
      /\ k = (uploaded_count + found_count new)%nat.
Proof.
  induction files as [| file_path rest IH]; intros uploaded_count s k s' H;
    simpl in H.
  - inversion H; subst. exists []. rewrite app_nil_r.
    unfold found_count. simpl. repeat split. lia.
  - rewrite bind_probe in H.
    destruct (path_exists (world s) file_path).
    + rewrite bind_print in H.
      apply bind_ret_inv in H. destruct H as [operation [s1 [Hp H]]].
      apply perform_ret_inv in Hp. destruct Hp as [w Hs1].
      apply bind_ret_inv in H. destruct H as [last [s2 [Hw H]]].
      destruct (wait_tally _ _ _ _ _ Hw) as [polls [Et2 [Hq _]]].
      apply IH in H. destruct H as [new [Et [Ha Hk]]].
      set (c := UploadToFileSearchStore file_path store
                  (upload_config file_path None)) in *.
      exists (Probed file_path true
              :: ([Called c (inr operation)] ++ polls) ++ new)%list.
      assert (Hquiet : quiet ([Called c (inr operation)] ++ polls))
        by (apply quiet_app; [apply upload_call_quiet | exact Hq]).
      destruct (after_found file_path _ new Hquiet)
        as [_ [_ [P3 [_ [P5 _]]]]].
      rewrite P3, P5. split; [| split; [exact Ha | lia]].
      rewrite Et, Et2, Hs1. cbn [trace logged printed].
      rewrite <- !app_assoc. reflexivity.
    + rewrite bind_print in H. apply IH in H. destruct H as [new [Et [Ha Hk]]].
      exists (Probed file_path false :: new).
      destruct (after_missing file_path new) as [_ [_ [P3 [_ [P5 _]]]]].
      rewrite P3, P5. split; [| split; [exact Ha | exact Hk]].
      rewrite Et. cbn [trace logged printed]. rewrite <- !app_assoc. reflexivity.
Qed.

Lemma demo_print_sources_run (chunks : list GroundingChunk) :
  forall s, exists s',
    RagZero.print_sources chunks s = (Ret tt, s') /\ trace s' = trace s.
Proof.
  induction chunks as [| chunk rest IH]; intro s; simpl.
  - exists s. split; reflexivity.
  - destruct (file_search chunk) as [fs |].
    + rewrite bind_print. destruct (IH (printed s ("   • " ++ doc_display_name
                                                       (document fs))))
        as [s' [Er Et]].
      exists s'. split; [exact Er | exact Et].
    + apply IH.
Qed.

(** A round of questions that comes back has put every question, in
    order. *)
Lemma ask_tally (model_name store : string) (questions : list string) :
  forall s s',
    RagZero.ask model_name store questions s = (Ret tt, s') ->
    exists new,
      trace s' = (trace s ++ new)%list
      /\ asked new = questions
      /\ found_count new = 0%nat.
Proof.
  induction questions as [| q rest IH]; intros s s' H; simpl in H.
  - inversion H; subst. exists []. rewrite app_nil_r. repeat split.
  - rewrite bind_print in H.
    apply bind_ret_inv in H. destruct H as [response [s1 [Hp H]]].
    apply perform_ret_inv in Hp. destruct Hp as [w Hs1].
    rewrite bind_print in H.
    apply bind_ret_inv in H. destruct H as [u [s2 [Hshow H]]].
    assert (Ht2 : trace s2 = trace s1).
    { destruct (candidates response) as [| candidate others];
        [discriminate |].
      destruct (grounding_metadata candidate) as [metadata |].
      - rewrite bind_print in Hshow.
        match type of Hshow with
        | context [RagZero.print_sources ?chunks ?st] =>
            destruct (demo_print_sources_run chunks st) as [s3 [Er Et3]]
        end.
        rewrite Er in Hshow. inversion Hshow; subst. exact Et3.
      - inversion Hshow; subst. reflexivity. }
    apply IH in H. destruct H as [new [Et [Ha Hf]]].
    exists (Called (GenerateContent model_name q [store]) (inr response) :: new).
    change (Called (GenerateContent model_name q [store]) (inr response) :: new)
      with ([Called (GenerateContent model_name q [store]) (inr response)]
            ++ new)%list.
    rewrite asked_app, found_count_app, Ha, Hf. split; [| split; reflexivity].
    rewrite Et, Ht2, Hs1. cbn [trace logged printed].
    rewrite <- app_assoc. reflexivity.
Qed.

End DemoQuestions.

(** X13.  A run of the demo's [main] that returns normally either found no
    sample file and put no question to the model, or found at least one
    and put exactly its questions, in order: the one question given with
    [--query] when that text is not empty, and otherwise - also for an
    empty [--query] - the three default questions. *)
Theorem demo_asks_its_questions {C : Client} (fuel : nat) (model_name : string)
    (query : option string) (s s' : state) :
  RagZero.main fuel model_name query s = (Ret tt, s') ->
  exists new,
    trace s' = (trace s ++ new)%list
    /\ ((found_count new = 0%nat /\ asked new = [])
        \/ ((0 < found_count new)%nat /\ asked new = demo_questions query)).
Proof.
  unfold RagZero.main. rewrite bind_print. intro H.
  apply bind_ret_inv in H. destruct H as [store [s1 [Hcreate H]]].
  apply create_returned in Hcreate. destruct Hcreate as [w Hs1].
  repeat rewrite bind_print in H.
  apply bind_ret_inv in H. destruct H as [uploaded_count [s2 [Hupload H]]].
  destruct (upload_samples_tally _ _ _ _ _ _ _ Hupload) as [new1 [Et1 [Ha1 Hk]]].
  rewrite Hs1 in Et1. cbn [trace printed logged] in Et1.
  set (created := Called (StoresCreate "Company Knowledge Base - Demo")
                    (inr store)) in *.
  set (deleted := Called (StoresDelete (store_name store) true) (inr tt)).
  destruct (uploaded_count =? 0)%nat eqn:Hzero.
  - apply Nat.eqb_eq in Hzero.
    repeat rewrite bind_print in H.
    apply bind_ret_inv in H. destruct H as [u [s3 [Hdelete H]]].
    inversion H; subst s'. apply delete_returned in Hdelete.
    cbn [trace printed] in Hdelete.
    exists ([created] ++ new1 ++ [deleted])%list. split.
    + rewrite Hdelete, Et1, <- !app_assoc. reflexivity.
    + left. rewrite !found_count_app, !asked_app, Ha1.
      unfold found_count at 1 3. simpl. split; [lia | reflexivity].
  - apply Nat.eqb_neq in Hzero.
    repeat rewrite bind_print in H.
    apply bind_ret_inv in H. destruct H as [u [s3 [Hask H]]].
    destruct u. destruct (ask_tally _ _ _ _ _ Hask) as [new2 [Et2 [Ha2 Hf2]]].
    cbn [trace printed] in Et2.
    rewrite bind_print in H.
    apply bind_ret_inv in H. destruct H as [u' [s4 [Hdelete H]]].
    inversion H; subst s'. apply delete_returned in Hdelete.
    cbn [trace printed] in Hdelete.
    exists ([created] ++ new1 ++ new2 ++ [deleted])%list. split.
    + cbn [trace printed]. rewrite Hdelete, Et2, Et1, <- !app_assoc. reflexivity.
    + right. rewrite !found_count_app, !asked_app, Ha1, Ha2, Hf2.
      unfold found_count at 1 3. simpl. rewrite app_nil_r.
      split; [lia | reflexivity].
Qed.

Lemma demo_asks_its_questions_witness :
  let demo := run one_sample (fun _ => RagZero.main 3 "gemini-2.5-flash" (Some "")) in
  fst demo = Ret tt
  /\ exists new,
       trace (snd demo) = new
       /\ ((found_count new = 0%nat /\ asked new = [])
           \/ ((0 < found_count new)%nat
               /\ asked new = RagZero.default_questions)).
Proof.
  split; [reflexivity |].
  apply (@demo_asks_its_questions (scripted one_sample) 3 "gemini-2.5-flash"
           (Some "") (@start (scripted one_sample) 0%nat)).
  reflexivity.
Defined.

(** ** The answers that confirm a deletion *)

Lemma lower_is_y (c : ascii) :
  Ascii.eqb (lower_ascii c) "y" = Ascii.eqb c "y" || Ascii.eqb c "Y".
Proof. destruct c as [[] [] [] [] [] [] [] []]; reflexivity. Qed.

Lemma lower_is_e (c : ascii) :
  Ascii.eqb (lower_ascii c) "e" = Ascii.eqb c "e" || Ascii.eqb c "E".
Proof. destruct c as [[] [] [] [] [] [] [] []]; reflexivity. Qed.

Lemma lower_is_s (c : ascii) :
  Ascii.eqb (lower_ascii c) "s" = Ascii.eqb c "s" || Ascii.eqb c "S".
Proof. destruct c as [[] [] [] [] [] [] [] []]; reflexivity. Qed.

(** Lower-casing gives the word yes for its eight spellings and for no
    other text. *)
Lemma lower_yes (answer : string) :
  String.eqb (lower answer) "yes" = existsb (String.eqb answer) yes_spellings.
Proof.
  unfold yes_spellings.
  destruct answer as [| c1 [| c2 [| c3 [| c4 rest]]]];
    cbn [lower existsb String.eqb];
    rewrite ?lower_is_y, ?lower_is_e, ?lower_is_s;
    repeat match goal with
           | |- context [Ascii.eqb ?a ?b] => destruct (Ascii.eqb a b)
           end;
    reflexivity.
Qed.

(** X14.  [delete_store] and [remove_document] take exactly eight answers
    for a confirmation: the word yes in any mix of upper and lower case.
    Any other text - a single y, or yes with a space around it - sends
    nothing to the remote. *)
Theorem only_the_word_yes_confirms {C : Client} (name answer : string)
    (s : state) (w : World) :
  remote string (world s) (Input "   Type 'yes' to confirm: ") = (w, inr answer) ->
  trace (snd (ManageFilestore.delete_store name s))
  = (trace s
     ++ Called (Input "   Type 'yes' to confirm: ") (inr answer)
     :: (if existsb (String.eqb answer) yes_spellings
         then [Called (StoresDelete name true)
                 (snd (remote unit w (StoresDelete name true)))]
         else []))%list
  /\ trace (snd (ManageFilestore.remove_document name s))
     = (trace s
        ++ Called (Input "   Type 'yes' to confirm: ") (inr answer)
        :: (if existsb (String.eqb answer) yes_spellings
            then [Called (DeleteDocument name)
                    (snd (remote unit w (DeleteDocument name)))]
            else []))%list.
Proof.
  intro Hinput.
  pose proof (confirmed_deletion
                (printed (printed s ("⚠️  Deleting store: " ++ name))
                   "   This will remove the store and all its documents.")
                (StoresDelete name true)
                "" "   ✅ Store deleted successfully!" "   ❌ Deletion cancelled."
                (fun e => "   ❌ Error deleting store: " ++ e)) as Hs.
  pose proof (confirmed_deletion
                (printed s ("⚠️  Removing document: " ++ name))
                (DeleteDocument name)
                "" "   ✅ Document removed successfully!" "   ❌ Removal cancelled."
                (fun e => "   ❌ Error removing document: " ++ e)) as Hd.
  simpl in Hs, Hd. rewrite Hinput in Hs, Hd.
  unfold confirmation_events, answered_yes in Hs, Hd.
  rewrite lower_yes in Hs, Hd.
  split; [exact (proj2 Hs) | exact (proj2 Hd)].
Qed.

Lemma only_the_word_yes_confirms_witness :
  (trace (snd (run (answering "YeS")
                 (fun _ => ManageFilestore.delete_store "fileSearchStores/kb")))
   = [Called (Input "   Type 'yes' to confirm: ") (inr "YeS");
      Called (StoresDelete "fileSearchStores/kb" true) (inr tt)]
   /\ trace (snd (run (answering "YeS")
                    (fun _ => ManageFilestore.remove_document "fileSearchStores/kb")))
      = [Called (Input "   Type 'yes' to confirm: ") (inr "YeS");
         Called (DeleteDocument "fileSearchStores/kb") (inr tt)])
  /\ (trace (snd (run (answering " yes")
                    (fun _ => ManageFilestore.delete_store "fileSearchStores/kb")))
      = [Called (Input "   Type 'yes' to confirm: ") (inr " yes")]
      /\ trace (snd (run (answering " yes")
                       (fun _ => ManageFilestore.remove_document
                                   "fileSearchStores/kb")))
         = [Called (Input "   Type 'yes' to confirm: ") (inr " yes")]).
Proof.
  split.
  - apply (@only_the_word_yes_confirms (scripted (answering "YeS"))
             "fileSearchStores/kb" "YeS"
             (@start (scripted (answering "YeS")) 0%nat) 0%nat).
    reflexivity.
  - apply (@only_the_word_yes_confirms (scripted (answering " yes"))
             "fileSearchStores/kb" " yes"
             (@start (scripted (answering " yes")) 0%nat) 0%nat).
    reflexivity.
Defined.

(** ** What an import reports *)

Section ImportReport.
Context {C : Client}.

Lemma wait_done_at_once (fuel : nat) (operation : Operation) (s : state) :
  done operation = true ->
  wait_until_done fuel operation s = (Ret operation, s).
Proof. intro Hdone. destruct fuel; simpl; rewrite Hdone; reflexivity. Qed.

Lemma import_one_run (fuel : nat) (store file_id : string)
    (custom_metadata : option string) (s : state) (w : World)
    (operation : Operation) :
  remote Operation (world s)
    (ImportFile store file_id (ManageFilestore.truthy custom_metadata))
    = (w, inr operation) ->
  done operation = true ->
  ManageFilestore.import_files fuel store [file_id] custom_metadata s =
  (Ret tt,
   {| world := w;
      trace := trace s
               ++ [Called (ImportFile store file_id
                             (ManageFilestore.truthy custom_metadata))
                     (inr operation)];
      out :=
        out s
        ++ [("📥 Importing files to store: " ++ store ++ nl)%string;
            ("   Importing " ++ file_id ++ "...")%string;
            match error operation with
            | Some err => ("   ❌ Failed: " ++ err)%string
            | None => "   ✅ Imported successfully"%string
            end;
            (nl ++ "✅ Imported "
             ++ match error operation with
                | Some _ => "0"
                | None => "1"
                end ++ "/1 files")%string] |}).
Proof.
  intros Hreply Hdone. unfold ManageFilestore.import_files.
  rewrite bind_print. cbn [ManageFilestore.import_each].
  unfold bind at 1 2, try_except. rewrite bind_print.
  unfold bind at 1, perform. cbn [world printed]. rewrite Hreply.
  unfold bind at 1. rewrite (wait_done_at_once fuel operation _ Hdone).
  destruct (error operation) as [err |]; rewrite bind_print;
    unfold ret, print, printed, logged; cbn [world trace out];
    rewrite <- ?app_assoc; reflexivity.
Qed.

End ImportReport.

(** X15.  [import_files] reads the error of a finished operation: for a
    file whose import answers with an operation that is done, it prints
    "Failed" with the error and leaves the file out of the count when the
    operation carries an error, and prints "Imported successfully" and
    counts the file when it carries none. *)
Theorem import_reports_failure_by_error {C : Client} (fuel : nat)
    (store file_id : string) (custom_metadata : option string) (s : state)
    (w : World) (operation : Operation) :
  remote Operation (world s)
    (ImportFile store file_id (ManageFilestore.truthy custom_metadata))
    = (w, inr operation) ->
  done operation = true ->
  fst (ManageFilestore.import_files fuel store [file_id] custom_metadata s)
  = Ret tt
  /\ fetched (trace (snd (ManageFilestore.import_files fuel store [file_id]
                            custom_metadata s)))
     = fetched (trace s)
  /\ out (snd (ManageFilestore.import_files fuel store [file_id]
                 custom_metadata s))
     = (out s
        ++ [("📥 Importing files to store: " ++ store ++ nl)%string;
            ("   Importing " ++ file_id ++ "...")%string;
            match error operation with
            | Some err => ("   ❌ Failed: " ++ err)%string
            | None => "   ✅ Imported successfully"%string
            end;
            (nl ++ "✅ Imported "
             ++ match error operation with
                | Some _ => "0"
                | None => "1"
                end ++ "/1 files")%string])%list.
Proof.
  intros Hreply Hdone.
  rewrite (import_one_run fuel store file_id custom_metadata s w operation
             Hreply Hdone).
  cbn [fst snd trace out]. split; [reflexivity | split; [| reflexivity]].
  unfold fetched. rewrite flat_map_app. simpl. apply app_nil_r.
Qed.

Lemma import_reports_failure_by_error_witness :
  let r := run failing_ingestion
             (fun _ => ManageFilestore.import_files 3 "fileSearchStores/kb"
                         ["files/r1"] (Some "")) in
  fst r = Ret tt
  /\ fetched (trace (snd r)) = []
  /\ out (snd r) =
       ["📥 Importing files to store: fileSearchStores/kb" ++ nl;
        "   Importing files/r1...";
        "   ❌ Failed: INVALID_ARGUMENT: unsupported file";
        nl ++ "✅ Imported 0/1 files"].
Proof.
  apply (@import_reports_failure_by_error (scripted failing_ingestion) 3
           "fileSearchStores/kb" "files/r1" (Some "")
           (@start (scripted failing_ingestion) 0%nat) 0%nat failed_operation);
    reflexivity.
Defined.

(** ** What a deletion reports *)

Section DeletionReport.
Context {C : Client}.


End DeletionReport.

